(** * tfdeepsurv.datasets: survival data preview and pre-processing

    A shallow embedding of [src/tfdeepsurv/datasets.py]:
    [survival_stats], [survival_df] and [load_simulated_data], over a small
    model of the pandas objects they manipulate.

    - A [DataFrame] is its index length together with its named columns, in
      column order.  Rows are addressed by position (the index is taken to be
      duplicate free, as the default [RangeIndex] is).
    - Cells are numbers, held as exact rationals, in columns that know how
      they are stored: the opposite of an integer cell and the sum of an
      integer column wrap around as NumPy's do.  The quotient
      [survival_stats] prints is rounded to binary64; the non-finite floats
      NumPy produces ([nan], [inf]) are explicit.
    - [survival_df] writes into the frame it receives, so it is a computation
      over the caller's frame (state passing); [survival_stats] writes lines
      to stdout (an output log); both may raise.
    - [load_simulated_data] has a dict as default argument; Python creates
      that object once, when the [def] is executed, so dicts live in a store
      of objects addressed by reference. *)

From Stdlib Require Import ZArith QArith Qabs Qround Qminmax Qpower Qreduction.
From Stdlib Require Import List Ascii String Lia.
From Stdlib Require Import DecimalString Lqa.
From Stdlib Require DecimalZ.
From stdpp Require Import gmap strings.
Import ListNotations.

Local Open Scope string_scope.
Local Open Scope list_scope.

(** ** Exceptions and results *)

(** The exceptions the three functions can raise.  The module defines no
    exception class of its own. *)
Inductive exn : Type :=
  | KeyError (key : string)
  | ZeroDivisionError
  | ValueError (msg : string).

Inductive result (A : Type) : Type :=
  | Ok (a : A)
  | Raise (e : exn).
Arguments Ok {A} a.
Arguments Raise {A} e.

(** ** Series and data frames *)

(** What a reduction such as [Series.sum] hands back: a NumPy scalar for the
    numeric dtypes (int64, float64, bool), a plain Python number for a column
    of dtype object.  The two differ in how they divide by zero. *)
Inductive dtype : Type := Numeric | Object.

(** How a numeric column stores its cells.  The opposite of a float is
    exact; integers are two's complement numbers of a fixed number of bits,
    and NumPy computes on them modulo 2^bits.  (A column of dtype object
    holds Python numbers; its storage is not looked at.) *)
Inductive storage : Type :=
  | Float                (* float64 *)
  | SInt (bits : Z)
  | UInt (bits : Z).

Record Series : Type := mkSeriesOf {
  dtype_of : dtype;
  storage_of : storage;
  values : list Q
}.

(** A column of floats, or of Python objects. *)
Definition mkSeries (k : dtype) (vs : list Q) : Series := mkSeriesOf k Float vs.

(** The same kind of column with other cells. *)
Definition with_values (s : Series) (vs : list Q) : Series :=
  mkSeriesOf (dtype_of s) (storage_of s) vs.

Record DataFrame : Type := mkDataFrame {
  nrows : nat;                         (* len(data) *)
  columns : list (string * Series)     (* data.columns, with their contents *)
}.

Definition column_names (d : DataFrame) : list string := map fst (columns d).

(** Well-formed frames: distinct column names, every column as long as the
    index.  The statements below are about such frames: under a repeated
    name pandas selects several columns at once, which [lookup_col] does not
    render. *)
Definition wf (d : DataFrame) : Prop :=
  List.NoDup (column_names d) /\
  Forall (fun c => List.length (values (snd c)) = nrows d) (columns d).

Fixpoint lookup_col (c : string) (cols : list (string * Series)) : option Series :=
  match cols with
  | [] => None
  | (n, s) :: rest => if String.eqb n c then Some s else lookup_col c rest
  end.

Fixpoint replace_col (c : string) (s : Series) (cols : list (string * Series))
  : list (string * Series) :=
  match cols with
  | [] => []
  | (n, s0) :: rest =>
      if String.eqb n c then (n, s) :: rest else (n, s0) :: replace_col c s rest
  end.

(** [data.loc[:, c] = s]: an existing column keeps its place and takes the
    new contents, a new one is appended after the last column. *)
Definition assign_col (c : string) (s : Series) (cols : list (string * Series))
  : list (string * Series) :=
  match lookup_col c cols with
  | Some _ => replace_col c s cols
  | None => cols ++ [(c, s)]
  end.

Definition mem_str (c : string) (l : list string) : bool :=
  existsb (String.eqb c) l.

(** Reading a column by name; pandas raises [KeyError] for an absent one. *)
Definition column (d : DataFrame) (c : string) : result Series :=
  match lookup_col c (columns d) with
  | Some s => Ok s
  | None => Raise (KeyError c)
  end.

(** ** Computations over the caller's frame *)

(** A statement of [survival_df] runs against the frame object the caller
    passed in, may change it, and may raise. *)
Definition Py (A : Type) : Type := DataFrame -> DataFrame * result A.

Definition py_ret {A} (a : A) : Py A := fun d => (d, Ok a).

Definition py_bind {A B} (m : Py A) (k : A -> Py B) : Py B :=
  fun d =>
    match m d with
    | (d', Ok a) => k a d'
    | (d', Raise e) => (d', Raise e)
    end.

Declare Scope py_scope.
Delimit Scope py_scope with py.
Notation "x <- m ;; k" := (py_bind m (fun x => k))
  (at level 100, m at next level, right associativity) : py_scope.
Notation "m ;;; k" := (py_bind m (fun _ => k))
  (at level 100, right associativity) : py_scope.

(** [data.columns] *)
Definition get_columns : Py (list string) :=
  fun d => (d, Ok (column_names d)).

(** [data[c]] and [data.loc[:, c]] *)
Definition getitem (c : string) : Py Series :=
  fun d => (d, column d c).

(** [data.loc[:, c] = s].  A new name gets a new last column.  Under an
    existing name the column is replaced by [s], as pandas did when this
    module was written; pandas 2 writes into the existing array instead and
    converts it only if it cannot hold the new cells, and pandas 3 refuses
    with a TypeError when it cannot.  All of them do the same when the column
    has the dtype of [s], which is what the statements about such writes
    ask for ([plain_write] below). *)
Definition loc_set (c : string) (s : Series) : Py unit :=
  fun d => (mkDataFrame (nrows d) (assign_col c s (columns d)), Ok tt).

(** [s == 0], elementwise *)
Definition eq_zero (s : Series) : list bool :=
  map (fun v => Qeq_bool v 0) (values s).

(** The cells of a column at the rows a boolean mask selects. *)
Fixpoint select_rows (mask : list bool) (vs : list Q) : list Q :=
  match mask, vs with
  | m :: mask', v :: vs' =>
      if m then v :: select_rows mask' vs' else select_rows mask' vs'
  | _, _ => []
  end.

(** Writing new cells back at the rows a mask selects; the other rows keep
    theirs. *)
Fixpoint update_rows (mask : list bool) (vs new : list Q) : list Q :=
  match mask, vs with
  | m :: mask', v :: vs' =>
      if m then
        match new with
        | n :: new' => n :: update_rows mask' vs' new'
        | [] => v :: update_rows mask' vs' []
        end
      else v :: update_rows mask' vs' new
  | _, _ => vs
  end.

(** [data.loc[mask, c]] *)
Definition loc_get_mask (mask : list bool) (c : string) : Py Series :=
  fun d =>
    match lookup_col c (columns d) with
    | Some s => (d, Ok (with_values s (select_rows mask (values s))))
    | None => (d, Raise (KeyError c))
    end.

(** [data.loc[mask, c] = s] for a column [c] of the frame.  (For an absent
    [c] pandas would enlarge the frame with a column padded with nan, which
    the cell type does not have; [survival_df] assigns the whole column on
    the line before, so it never gets there, and the case is rendered as a
    [KeyError].) *)
Definition loc_set_mask (mask : list bool) (c : string) (s : Series) : Py unit :=
  fun d =>
    match lookup_col c (columns d) with
    | Some s0 =>
        (mkDataFrame (nrows d)
           (replace_col c
              (with_values s0 (update_rows mask (values s0) (values s)))
              (columns d)),
         Ok tt)
    | None => (d, Raise (KeyError c))
    end.

(** The opposite of one cell, in the dtype of its column.  On signed
    integers only the least number has no opposite and is its own; on
    unsigned integers the opposite of a non-zero [v] is [2^bits - v]. *)
Definition neg_cell (k : dtype) (st : storage) (v : Q) : Q :=
  match k, st with
  | Numeric, SInt w =>
      if Qeq_bool v (inject_Z (- 2 ^ (w - 1))) then v else Qopp v
  | Numeric, UInt w =>
      if Qeq_bool v 0 then v else (inject_Z (2 ^ w) - v)%Q
  | _, _ => Qopp v
  end.

(** Unary minus on a Series. *)
Definition neg (s : Series) : Series :=
  with_values s (map (neg_cell (dtype_of s) (storage_of s)) (values s)).

(** [data[names]]: a new frame with the named columns, in the order asked. *)
Fixpoint pick (names : list string) (cols : list (string * Series))
  : result (list (string * Series)) :=
  match names with
  | [] => Ok []
  | n :: rest =>
      match lookup_col n cols with
      | None => Raise (KeyError n)
      | Some s =>
          match pick rest cols with
          | Ok l => Ok ((n, s) :: l)
          | Raise e => Raise e
          end
      end
  end.

Definition getitem_list (names : list string) : Py DataFrame :=
  fun d =>
    match pick names (columns d) with
    | Ok l => (d, Ok (mkDataFrame (nrows d) l))
    | Raise e => (d, Raise e)
    end.

(** ** survival_df *)

Definition survival_df (t_col e_col label_col : string) (exclude_col : list string)
  : Py DataFrame :=
  (cols <- get_columns ;;
   let x_cols :=
     List.filter (fun c => negb (mem_str c ([t_col; e_col] ++ exclude_col))) cols in
   (* data.loc[:, label_col] = data.loc[:, t_col] *)
   ts <- getitem t_col ;;
   loc_set label_col ts ;;;
   (* data.loc[data[e_col] == 0, label_col] = - data.loc[data[e_col] == 0, label_col] *)
   es <- getitem e_col ;;
   ys <- loc_get_mask (eq_zero es) label_col ;;
   es' <- getitem e_col ;;
   loc_set_mask (eq_zero es') label_col (neg ys) ;;;
   getitem_list (x_cols ++ [label_col]))%py.

(** The spec's example table. *)
Definition num (vs : list Q) : Series := mkSeries Numeric vs.

Definition example_table : DataFrame :=
  mkDataFrame 2
    [ ("x_0", num [1; 3]); ("x_1", num [2; 4]);
      ("t", num [5; 10]); ("e", num [1; 0]) ]%Q.

(** ** Standard output *)

(** Non-finite floats are explicit; finite ones are exact rationals. *)
Inductive float_val : Type :=
  | Fin (q : Q)
  | NaN
  | PosInf
  | NegInf.

(** One argument of a [print] call. *)
Inductive token : Type :=
  | TStr (s : string)
  | TInt (z : Z)
  | TNum (v : float_val).

(** One [print] call: its arguments, which Python joins with single spaces. *)
Definition line : Type := list token.

(** A computation that prints and may raise. *)
Definition IO (A : Type) : Type := (list line * result A)%type.

Definition io_ret {A} (a : A) : IO A := ([], Ok a).

Definition io_bind {A B} (m : IO A) (k : A -> IO B) : IO B :=
  match m with
  | (out, Ok a) => let '(out', r) := k a in (out ++ out', r)
  | (out, Raise e) => (out, Raise e)
  end.

Definition print (l : line) : IO unit := ([l], Ok tt).

Definition lift {A} (r : result A) : IO A := ([], r).

Declare Scope io_scope.
Delimit Scope io_scope with io.
Notation "x <- m ;; k" := (io_bind m (fun x => k))
  (at level 100, m at next level, right associativity) : io_scope.
Notation "m ;;; k" := (io_bind m (fun _ => k))
  (at level 100, right associativity) : io_scope.

(** ** Number formatting *)

(** ["%d" % z] *)
Definition format_d (z : Z) : string := NilZero.string_of_int (Z.to_int z).

Definition round_half_even (x : Q) : Z :=
  let f := Qfloor x in
  match Qcompare (x - inject_Z f) (1 # 2) with
  | Lt => f
  | Gt => (f + 1)%Z
  | Eq => if Z.even f then f else (f + 1)%Z
  end.

(** The number of hundredths ["%.2f"] prints for a finite value, sign apart. *)
Definition hundredths (q : Q) : Z := round_half_even (Qabs q * 100).

Definition two_digits (z : Z) : string :=
  if (z <? 10)%Z then "0" ++ format_d z else format_d z.

(** ["%.2f" % v] *)
Definition format_2f (v : float_val) : string :=
  match v with
  | NaN => "nan"
  | PosInf => "inf"
  | NegInf => "-inf"
  | Fin q =>
      let h := hundredths q in
      (if Qle_bool 0 q then "" else "-") ++
      format_d (h / 100) ++ "." ++ two_digits (h mod 100)
  end.

(** ** Reductions *)

(** Sums of integer columns are taken in 64 bits and wrap around. *)
Definition wrap_signed64 (q : Q) : Q :=
  if Qle_bool (inject_Z (- 2 ^ 63)) q && negb (Qle_bool (inject_Z (2 ^ 63)) q)
  then q
  else inject_Z ((Qfloor q + 2 ^ 63) mod 2 ^ 64 - 2 ^ 63).

Definition wrap_unsigned64 (q : Q) : Q :=
  if Qle_bool 0 q && negb (Qle_bool (inject_Z (2 ^ 64)) q)
  then q
  else inject_Z (Qfloor q mod 2 ^ 64).

(** [s.sum()].  For a column of floats the total is the exact one: the
    rounding binary64 addition accumulates is not rendered.  It is the
    total pandas computes whenever the partial sums are integers below 2^53,
    as those of event indicators are; the statements about the ratio ask for
    that. *)
Definition series_sum (s : Series) : Q :=
  let total := fold_right Qplus 0%Q (values s) in
  match dtype_of s, storage_of s with
  | Numeric, SInt _ => wrap_signed64 total
  | Numeric, UInt _ => wrap_unsigned64 total
  | _, _ => total
  end.

(** [s.min()] and [s.max()]; nan for an empty Series. *)
Definition series_min (s : Series) : float_val :=
  match values s with
  | [] => NaN
  | v :: vs => Fin (fold_left Qmin vs v)
  end.

Definition series_max (s : Series) : float_val :=
  match values s with
  | [] => NaN
  | v :: vs => Fin (fold_left Qmax vs v)
  end.

(** ** Binary64 arithmetic *)

(** [floor (log2 q)] for a positive [q]: the difference of the bit lengths of
    numerator and denominator is that number or one more. *)
Definition ilog2 (q : Q) : Z :=
  let k := (Z.log2 (Qnum q) - Z.log2 (Zpos (Qden q)))%Z in
  if Qle_bool (Qpower 2 k) q then k else (k - 1)%Z.

(** The exponent of the unit in the last place of the binary64 numbers
    around a positive [q]: 53 significant bits, and no finer than 2^-1074. *)
Definition ulp_exp (q : Q) : Z := Z.max (ilog2 q - 52) (-1074).

(** Rounding a real number to binary64, to nearest, ties to even.  (The
    sign of a zero is not kept.) *)
Definition b64 (q : Q) : float_val :=
  let q := Qred q in
  if Qeq_bool q 0 then Fin 0
  else
    let u := ulp_exp (Qabs q) in
    let m := round_half_even (Qabs q / Qpower 2 u) in
    let v := Qred (inject_Z m * Qpower 2 u) in
    if Qle_bool (Qpower 2 1024) v then (if Qle_bool 0 q then PosInf else NegInf)
    else Fin (if Qle_bool 0 q then v else Qopp v).

(** Division of two NumPy floats: no exception, a zero divisor gives nan or
    an infinity (with a RuntimeWarning). *)
Definition fdiv (x y : float_val) : float_val :=
  match x, y with
  | NaN, _ | _, NaN => NaN
  | Fin a, Fin b =>
      if Qeq_bool b 0 then
        (if Qeq_bool a 0 then NaN else if Qle_bool 0 a then PosInf else NegInf)
      else b64 (a / b)
  | Fin _, _ => Fin 0
  | PosInf, Fin b => if Qle_bool 0 b then PosInf else NegInf
  | NegInf, Fin b => if Qle_bool 0 b then NegInf else PosInf
  | _, _ => NaN
  end.

(** [1.0 * total / N]: the total becomes a float, then so does [N], and the
    two are divided.  With a Python float as dividend (the total of a column
    of dtype object) a zero [N] raises instead. *)
Definition true_divide (k : dtype) (total : Q) (N : nat) : result float_val :=
  match k, N with
  | Object, O => Raise ZeroDivisionError
  | _, _ => Ok (fdiv (b64 total) (b64 (inject_Z (Z.of_nat N))))
  end.

(** ** survival_stats *)

Section Stats.

(** The plotting routine of [tfdeepsurv.vision]; it is not part of this
    module, and all that matters here is whether it returns or raises. *)
Variable plot_km_survf : DataFrame -> string -> string -> result unit.

Definition survival_stats (data : DataFrame) (t_col e_col : string) (plot : bool)
  : IO unit :=
  (print [TStr "--------------- Survival Data Statistics ---------------"] ;;;
   let N := nrows data in
   print [TStr "# Rows:"; TInt (Z.of_nat N)] ;;;
   print [TStr ("# Columns: "
                ++ format_d (Z.of_nat (List.length (columns data)) - 2)
                ++ " + " ++ e_col ++ " + " ++ t_col)] ;;;
   es <- lift (column data e_col) ;;
   ratio <- lift (true_divide (dtype_of es) (series_sum es) N) ;;
   print [TStr ("# Events Ratio: " ++ format_2f ratio ++ "%")] ;;;
   ts <- lift (column data t_col) ;;
   print [TStr "# Min Time:"; TNum (series_min ts)] ;;;
   ts' <- lift (column data t_col) ;;
   print [TStr "# Max Time:"; TNum (series_max ts')] ;;;
   print [TStr ""] ;;;
   if plot then lift (plot_km_survf data "t" "e") else io_ret tt)%io.

End Stats.

Definition no_plot : DataFrame -> string -> string -> result unit :=
  fun _ _ _ => Ok tt.

(** ** load_simulated_data *)

(** Python objects that can be shared live in a store and are passed around
    by reference.  The only ones that matter here are configuration dicts. *)
Record sim_args : Type := mkSimArgs {
  hr_ratio : Q;
  N : nat;
  num_features : nat;
  num_var : nat;
  average_death : Q;
  end_time : Q;
  method : string;
  seed : Z
}.

(** What [generate_data] returns: the dict with keys 'x' (one row of
    covariates per observation), 'e' and 't', three arrays of floats.  The
    matrix is given row by row; one that has no rows does not tell its
    width, and is taken to have the width asked for. *)
Record raw_data : Type := mkRaw {
  raw_x : list (list Q);
  raw_e : list Q;
  raw_t : list Q
}.

(** [['x_' + str(i) for i in range(k)]] paired with the columns of the
    matrix; [pd.DataFrame(x, columns=...)] refuses a matrix whose width is
    not the number of names. *)
Definition frame_of_matrix (x : list (list Q)) (k : nat) : result DataFrame :=
  if forallb (fun row => Nat.eqb (List.length row) k) x then
    Ok (mkDataFrame (List.length x)
          (map (fun j => (("x_" ++ format_d (Z.of_nat j))%string,
                          num (map (fun row => nth j row 0%Q) x)))
               (seq 0 k)))
  else Raise (ValueError "Shape of passed values does not match the columns").

(** [df[c] = vals].  The values must be as many as the rows, except that a
    frame without rows takes its index from them.  (If such a frame has
    columns already, pandas pads them with nan, which the cell type does not
    have; that frame is not built here, and the case is left as the
    [ValueError] of a frame with rows.  The matrix of a frame without rows
    likewise carries no width here, see [frame_of_matrix].) *)
Definition setitem (c : string) (vals : list Q) (d : DataFrame) : result DataFrame :=
  if Nat.eqb (List.length vals) (nrows d) then
    Ok (mkDataFrame (nrows d) (assign_col c (num vals) (columns d)))
  else
    match nrows d, columns d with
    | O, [] => Ok (mkDataFrame (List.length vals) [(c, num vals)])
    | _, _ => Raise (ValueError "Length of values does not match length of index")
    end.

Definition frame_of_raw (raw : raw_data) (k : nat) : result DataFrame :=
  match frame_of_matrix (raw_x raw) k with
  | Raise e => Raise e
  | Ok df =>
      match setitem "e" (raw_e raw) df with
      | Raise e => Raise e
      | Ok df' => setitem "t" (raw_t raw) df'
      end
  end.

Section Simulated.

(** [SimulatedData(...).generate_data(...)] of [tfdeepsurv.simulator],
    which is not part of this module: it receives the arguments and the
    reference to the configuration dict, and may read or write the store. *)
Variable generate_data :
  sim_args -> nat -> gmap nat (gmap string Q) ->
  gmap nat (gmap string Q) * result raw_data.

(** Executing the [def] statement evaluates the default [{}] once: one new
    empty dict is allocated, and the function object keeps the reference. *)
Definition def_load_simulated_data (h : gmap nat (gmap string Q))
  : gmap nat (gmap string Q) * nat :=
  let l := fresh (dom h) in (<[l := ∅]> h, l).

(** The dict a call hands to the generator: the caller's, or else the
    default kept by the function object. *)
Definition config_ref (default_cfg : nat) (gaussian_config : option nat) : nat :=
  match gaussian_config with
  | Some l => l
  | None => default_cfg
  end.

Definition load_simulated_data (default_cfg : nat) (a : sim_args)
    (gaussian_config : option nat) (h : gmap nat (gmap string Q))
  : gmap nat (gmap string Q) * result DataFrame :=
  match generate_data a (config_ref default_cfg gaussian_config) h with
  | (h', Ok raw) => (h', frame_of_raw raw (num_features a))
  | (h', Raise e) => (h', Raise e)
  end.

(** A sequence of calls, each with its arguments, run one after another on
    the same function object. *)
Fixpoint run_calls (default_cfg : nat) (calls : list (sim_args * option nat))
    (h : gmap nat (gmap string Q)) : gmap nat (gmap string Q) :=
  match calls with
  | [] => h
  | (a, g) :: rest =>
      run_calls default_cfg rest (fst (load_simulated_data default_cfg a g h))
  end.

End Simulated.

(** ** Derived descriptions used in the statements *)

(** What the masked read, negation and masked write amount to, row by row:
    [f] is the opposite in the dtype of the column. *)
Fixpoint negate_where (f : Q -> Q) (mask : list bool) (vs : list Q) : list Q :=
  match mask, vs with
  | m :: mask', v :: vs' => (if m then f v else v) :: negate_where f mask' vs'
  | _, _ => vs
  end.

(** The opposite of a cell of the column [s]. *)
Definition neg_in (s : Series) : Q -> Q := neg_cell (dtype_of s) (storage_of s).

(** Two columns of one dtype. *)
Definition same_dtype (s1 s2 : Series) : Prop :=
  dtype_of s1 = dtype_of s2 /\ storage_of s1 = storage_of s2.

(** A write [data.loc[:, c] = s] that every version of pandas performs
    alike: [c] is a new name, or names a column of the dtype of [s]. *)
Definition plain_write (cols : list (string * Series)) (c : string) (s : Series)
  : Prop :=
  match lookup_col c cols with
  | None => True
  | Some s0 => same_dtype s0 s
  end.

(** A column whose dtype has an opposite for every positive number: floats,
    signed integers, Python objects. *)
Definition signed_dtype (s : Series) : Prop :=
  dtype_of s = Object \/ storage_of s = Float \/
  exists w, (0 < w)%Z /\ storage_of s = SInt w.

(** A cell that fits the integer dtype of its column (nothing is asked of
    floats and objects). *)
Definition cell_in_range (k : dtype) (st : storage) (v : Q) : Prop :=
  match k, st with
  | Numeric, SInt w =>
      (inject_Z (- 2 ^ (w - 1)) <= v)%Q /\ (v < inject_Z (2 ^ (w - 1)))%Q
  | Numeric, UInt w => (0 <= v)%Q /\ (v < inject_Z (2 ^ w))%Q
  | _, _ => True
  end.

Definition in_range (s : Series) : Prop :=
  Forall (cell_in_range (dtype_of s) (storage_of s)) (values s).

(** The label may be written into the caller's table whatever the version
    of pandas: see [plain_write]. *)
Definition compatible_label (d : DataFrame) (t_col label_col : string) : Prop :=
  forall ts, lookup_col t_col (columns d) = Some ts ->
             plain_write (columns d) label_col ts.

(** The covariate names [survival_df] retains. *)
Definition retained (t_col e_col : string) (exclude_col : list string) (c : string) : bool :=
  negb (mem_str c ([t_col; e_col] ++ exclude_col)).

(** The label Series [survival_df] computes from the time and event columns
    of the table it is given. *)
Definition label_series (label_col e_col : string) (ts es : Series) : Series :=
  with_values ts
    (if String.eqb label_col e_col then values ts
     else negate_where (neg_in ts) (eq_zero es) (values ts)).

(** ** Numbers as they are printed *)

(** The character of a decimal digit. *)
Definition digit (z : Z) : ascii := ascii_of_nat (48 + Z.to_nat z).

(** A number of hundredths between 0 and 100, written out with two
    decimals: 0.00, 0.01, ..., 0.99, 1.00. *)
Definition two_decimals (h : Z) : string :=
  if (h =? 100)%Z then "1.00"
  else ("0." ++ String (digit (h / 10)) (String (digit (h mod 10)) ""))%string.

(** [q] is the binary64 number nearest to the real number [x >= 0], which is
    zero or in the range of the normal numbers: with [x] between [2^e] and
    [2^(e+1)], [q] is a multiple [m] of [2^(e-52)] no more than half of that
    away, and of two such multiples it is the even one. *)
Definition nearest_binary64 (x q : Q) : Prop :=
  ((x == 0)%Q /\ (q == 0)%Q) \/
  ((0 < x)%Q /\
   exists e m : Z,
     (-1022 <= e < 1024)%Z /\
     (Qpower 2 e <= x)%Q /\ (x < Qpower 2 (e + 1))%Q /\
     (q == inject_Z m * Qpower 2 (e - 52))%Q /\
     (Qabs (q - x) <= Qpower 2 (e - 53))%Q /\
     ((Qabs (q - x) == Qpower 2 (e - 53))%Q -> Z.even m = true)).

(** [h] is the number of hundredths nearest to [q], the even one of two. *)
Definition nearest_hundredth (q : Q) (h : Z) : Prop :=
  (Qabs (inject_Z h - q * 100) <= 1 # 2)%Q /\
  ((Qabs (inject_Z h - q * 100) == 1 # 2)%Q -> Z.even h = true).

(** The sum of the cells, as a real number. *)
Definition total (s : Series) : Q := fold_right Qplus 0%Q (values s).

(** ** Tables used in the examples below *)

(** One censored subject, the time held as an unsigned 64-bit integer. *)
Definition unsigned_table : DataFrame :=
  mkDataFrame 1
    [ ("t", mkSeriesOf Numeric (UInt 64) [10]%Q); ("e", num [0]%Q) ].

(** One censored subject, at time 10. *)
Definition censored_table : DataFrame :=
  mkDataFrame 1 [ ("t", num [10]); ("e", num [0]) ]%Q.

(** A table with a time column and no event column. *)
Definition no_event_table : DataFrame :=
  mkDataFrame 2 [ ("x_0", num [1; 3]); ("t", num [5; 10]) ]%Q.

(** A table with an event column and no time column. *)
Definition no_time_table : DataFrame :=
  mkDataFrame 2 [ ("x_0", num [1; 3]); ("e", num [1; 0]) ]%Q.

(** Zero rows, numeric columns (for instance what a row filter that matches
    nothing leaves of a numeric table). *)
Definition empty_numeric_table : DataFrame :=
  mkDataFrame 0 [ ("t", num []); ("e", num []) ].

(** Zero rows, columns of dtype object (what [pd.DataFrame(columns=[...])]
    builds). *)
Definition empty_object_table : DataFrame :=
  mkDataFrame 0 [ ("t", mkSeries Object []); ("e", mkSeries Object []) ].

(** 100 subjects, the first 30 with an observed event. *)
Definition hundred_rows : DataFrame :=
  mkDataFrame 100
    [ ("t", num (repeat 1%Q 100));
      ("e", num (repeat 1%Q 30 ++ repeat 0%Q 70)) ].

(** A table whose covariate [x_0] has the name asked for the label. *)
Definition collision_table : DataFrame :=
  mkDataFrame 2 [ ("x_0", num [1; 3]); ("t", num [5; 10]); ("e", num [1; 0]) ]%Q.

(** Zero rows, an event column of dtype object and no time column. *)
Definition empty_object_no_time : DataFrame :=
  mkDataFrame 0 [ ("e", mkSeries Object []) ].

(** Event cells that are neither 0 nor 1. *)
Definition odd_events_table : DataFrame :=
  mkDataFrame 3 [ ("t", num [5; 10; 7]); ("e", num [2; 1 # 2; 0]) ]%Q.

(** Three subjects, all with the event; and three, all censored. *)
Definition all_events_table : DataFrame :=
  mkDataFrame 3 [ ("t", num [5; 10; 7]); ("e", num [1; 1; 1]) ]%Q.

Definition all_censored_table : DataFrame :=
  mkDataFrame 3 [ ("t", num [5; 10; 7]); ("e", num [0; 0; 0]) ]%Q.

(** ** The lines of a report *)

(** The three lines printed before any column is read. *)
Definition preamble (data : DataFrame) (t_col e_col : string) : list line :=
  [ [TStr "--------------- Survival Data Statistics ---------------"];
    [TStr "# Rows:"; TInt (Z.of_nat (nrows data))];
    [TStr ("# Columns: "
           ++ format_d (Z.of_nat (List.length (columns data)) - 2)
           ++ " + " ++ e_col ++ " + " ++ t_col)] ].

Definition ratio_line (r : float_val) : line :=
  [TStr ("# Events Ratio: " ++ format_2f r ++ "%")].

(** The lines printed once the ratio is known and the time column is read. *)
Definition body (r : float_val) (ts : Series) : list line :=
  [ ratio_line r;
    [TStr "# Min Time:"; TNum (series_min ts)];
    [TStr "# Max Time:"; TNum (series_max ts)];
    [TStr ""] ].

(** ** The shape of simulated data *)

(** The covariate columns [frame_of_matrix] builds, and their names. *)
Definition feature_names (k : nat) : list string :=
  map (fun j => ("x_" ++ format_d (Z.of_nat j))%string) (seq 0 k).

Definition feature_columns (x : list (list Q)) (k : nat) : list (string * Series) :=
  map (fun j => (("x_" ++ format_d (Z.of_nat j))%string,
                 num (map (fun row => nth j row 0%Q) x)))
      (seq 0 k).

(** A matrix with at least one row, all rows of one length. *)
Definition is_matrix (x : list (list Q)) : Prop :=
  x <> [] /\ exists w, Forall (fun row => List.length row = w) x.

(** Generated data that fit together: [k] covariates in every row, and one
    event and one time per row. *)
Definition well_shaped (raw : raw_data) (k : nat) : Prop :=
  Forall (fun row => List.length row = k) (raw_x raw) /\
  List.length (raw_e raw) = List.length (raw_x raw) /\
  List.length (raw_t raw) = List.length (raw_x raw).

(** Two observations of two covariates; and a generator that returns them
    whatever it is asked. *)
Definition raw_example : raw_data :=
  mkRaw [ [1; 2]; [3; 4] ]%Q [1; 0]%Q [5; 10]%Q.

Definition constant_generate_data (a : sim_args) (cfg : nat)
    (h : gmap nat (gmap string Q))
  : gmap nat (gmap string Q) * result raw_data :=
  (h, Ok raw_example).

Definition two_features : sim_args :=
  mkSimArgs 2 2 2 1 5 15 "gaussian" 42.

(** A generator whose event array is one entry short. *)
Definition short_generate_data (a : sim_args) (cfg : nat)
    (h : gmap nat (gmap string Q))
  : gmap nat (gmap string Q) * result raw_data :=
  (h, Ok (mkRaw [ [1; 2]; [3; 4] ]%Q [1]%Q [5; 10]%Q)).

(** ** Two generators, to run [load_simulated_data] on *)

(** A generator that completes the configuration it is handed, the way code
    filling in defaults with [setdefault] does: if the dict has no key "c"
    it stores one there (taken from the seed), and the data it produces
    depend on the configuration. *)
Definition completing_generate_data (a : sim_args) (cfg : nat)
    (h : gmap nat (gmap string Q))
  : gmap nat (gmap string Q) * result raw_data :=
  match h !! cfg with
  | None => (h, Raise (ValueError "no such object"))
  | Some c =>
      let c' :=
        match c !! "c" with
        | Some _ => c
        | None => <["c" := inject_Z (seed a)]> c
        end in
      let v := match c' !! "c" with Some q => q | None => 0%Q end in
      (<[cfg := c']> h,
       Ok (mkRaw (repeat (repeat v (num_features a)) (N a))
                 (repeat 1%Q (N a))
                 (repeat v (N a))))
  end.

(** A generator that only reads its configuration. *)
Definition reading_generate_data (a : sim_args) (cfg : nat)
    (h : gmap nat (gmap string Q))
  : gmap nat (gmap string Q) * result raw_data :=
  match h !! cfg with
  | None => (h, Raise (ValueError "no such object"))
  | Some c =>
      let v := match c !! "c" with Some q => q | None => 0%Q end in
      (h,
       Ok (mkRaw (repeat (repeat v (num_features a)) (N a))
                 (repeat 1%Q (N a))
                 (repeat v (N a))))
  end.

Definition args_with_seed (s : Z) : sim_args :=
  mkSimArgs 2 1 1 1 5 15 "gaussian" s.

(** The store right after the [def] statement has run in an empty store,
    and the reference the function object keeps. *)
Definition store0 : gmap nat (gmap string Q) :=
  fst (def_load_simulated_data ∅).
Definition default0 : nat := snd (def_load_simulated_data ∅).

(** * Properties *)

(** ** The examples of the specification *)

Example survival_df_example :
  snd (survival_df "t" "e" "Y" [] example_table) =
  Ok (mkDataFrame 2
        [ ("x_0", num [1; 3]); ("x_1", num [2; 4]); ("Y", num [5; -10]) ]%Q).
Proof. reflexivity. Qed.

Example survival_df_odd_events :
  snd (survival_df "t" "e" "Y" [] odd_events_table) =
  Ok (mkDataFrame 3 [ ("Y", num [5; 10; -7]) ]%Q).
Proof. reflexivity. Qed.

Example survival_stats_example :
  survival_stats no_plot example_table "t" "e" false =
  ([ [TStr "--------------- Survival Data Statistics ---------------"];
     [TStr "# Rows:"; TInt 2];
     [TStr "# Columns: 2 + e + t"];
     [TStr "# Events Ratio: 0.50%"];
     [TStr "# Min Time:"; TNum (Fin 5)];
     [TStr "# Max Time:"; TNum (Fin 10)];
     [TStr ""] ], Ok tt).
Proof. reflexivity. Qed.

(** ** Columns by name *)

Lemma lookup_replace_eq c s cols :
  lookup_col c (replace_col c s cols) =
  match lookup_col c cols with Some _ => Some s | None => None end.
Proof.
  induction cols as [|[n s0] rest IH]; simpl; [reflexivity|].
  destruct (String.eqb n c) eqn:E; simpl; rewrite E; auto.
Qed.

Lemma lookup_replace_ne c c' s cols :
  c <> c' -> lookup_col c' (replace_col c s cols) = lookup_col c' cols.
Proof.
  intros Hne. induction cols as [|[n s0] rest IH]; simpl; [reflexivity|].
  destruct (String.eqb n c) eqn:E; simpl.
  - apply String.eqb_eq in E. subst n.
    destruct (String.eqb c c') eqn:E'; [apply String.eqb_eq in E'; contradiction|reflexivity].
  - rewrite IH. reflexivity.
Qed.

Lemma lookup_app_none c cols extra :
  lookup_col c cols = None -> lookup_col c (cols ++ extra) = lookup_col c extra.
Proof.
  induction cols as [|[n s0] rest IH]; simpl; [reflexivity|].
  destruct (String.eqb n c); [discriminate|auto].
Qed.

Lemma lookup_app_some c cols extra s :
  lookup_col c cols = Some s -> lookup_col c (cols ++ extra) = Some s.
Proof.
  induction cols as [|[n s0] rest IH]; simpl; [discriminate|].
  destruct (String.eqb n c); auto.
Qed.

Lemma lookup_assign_eq c s cols : lookup_col c (assign_col c s cols) = Some s.
Proof.
  unfold assign_col. destruct (lookup_col c cols) eqn:E.
  - rewrite lookup_replace_eq, E. reflexivity.
  - rewrite (lookup_app_none _ _ _ E). simpl. rewrite String.eqb_refl. reflexivity.
Qed.

Lemma lookup_assign_ne c c' s cols :
  c <> c' -> lookup_col c' (assign_col c s cols) = lookup_col c' cols.
Proof.
  intros Hne. unfold assign_col. destruct (lookup_col c cols) eqn:E.
  - apply lookup_replace_ne; assumption.
  - destruct (lookup_col c' cols) eqn:E'.
    + apply lookup_app_some; assumption.
    + rewrite (lookup_app_none _ _ _ E'). simpl.
      destruct (String.eqb c c') eqn:Ecc; [apply String.eqb_eq in Ecc; contradiction|reflexivity].
Qed.

Lemma replace_replace c s1 s2 cols :
  replace_col c s2 (replace_col c s1 cols) = replace_col c s2 cols.
Proof.
  induction cols as [|[n s0] rest IH]; simpl; [reflexivity|].
  destruct (String.eqb n c) eqn:E; simpl; rewrite E; [reflexivity|].
  rewrite IH. reflexivity.
Qed.

Lemma replace_app_none c s cols extra :
  lookup_col c cols = None ->
  replace_col c s (cols ++ extra) = cols ++ replace_col c s extra.
Proof.
  induction cols as [|[n s0] rest IH]; simpl; [reflexivity|].
  destruct (String.eqb n c); [discriminate|]. intros H. rewrite IH; auto.
Qed.

Lemma replace_assign c s1 s2 cols :
  replace_col c s2 (assign_col c s1 cols) = assign_col c s2 cols.
Proof.
  unfold assign_col. destruct (lookup_col c cols) eqn:E.
  - apply replace_replace.
  - rewrite replace_app_none by assumption. simpl.
    rewrite String.eqb_refl. reflexivity.
Qed.

Lemma lookup_col_In c s cols : lookup_col c cols = Some s -> In (c, s) cols.
Proof.
  induction cols as [|[n s0] rest IH]; simpl; [discriminate|].
  destruct (String.eqb n c) eqn:E.
  - apply String.eqb_eq in E. intros [= ->]. subst. left; reflexivity.
  - intros H. right. auto.
Qed.

Lemma lookup_col_None c cols : lookup_col c cols = None <-> ~ In c (map fst cols).
Proof.
  induction cols as [|[n s0] rest IH]; simpl.
  - tauto.
  - destruct (String.eqb n c) eqn:E.
    + apply String.eqb_eq in E. split; [discriminate|]. intros H; exfalso; auto.
    + apply String.eqb_neq in E. rewrite IH. tauto.
Qed.

Lemma names_replace c s cols : map fst (replace_col c s cols) = map fst cols.
Proof.
  induction cols as [|[n s0] rest IH]; simpl; [reflexivity|].
  destruct (String.eqb n c); simpl; congruence.
Qed.

Lemma names_assign c s cols :
  map fst (assign_col c s cols) =
  map fst cols ++ match lookup_col c cols with Some _ => [] | None => [c] end.
Proof.
  unfold assign_col. destruct (lookup_col c cols).
  - rewrite names_replace, app_nil_r. reflexivity.
  - rewrite map_app. reflexivity.
Qed.

Lemma mem_str_In c l : mem_str c l = true <-> In c l.
Proof.
  unfold mem_str. rewrite existsb_exists. split.
  - intros (x & Hx & E). apply String.eqb_eq in E. subst. assumption.
  - intros H. exists c. split; [assumption|apply String.eqb_refl].
Qed.

(** ** Masked negation *)

Lemma update_select_neg f mask vs :
  update_rows mask vs (map f (select_rows mask vs)) = negate_where f mask vs.
Proof.
  revert vs. induction mask as [|m mask IH]; intros [|v vs]; simpl; try reflexivity.
  destruct m; simpl; rewrite IH; reflexivity.
Qed.

Lemma negate_where_length f mask vs :
  List.length (negate_where f mask vs) = List.length vs.
Proof.
  revert vs. induction mask as [|m mask IH]; intros [|v vs]; simpl; auto.
Qed.

Lemma negate_where_nth f (ev tv : list Q) i e t :
  nth_error ev i = Some e -> nth_error tv i = Some t ->
  nth_error (negate_where f (map (fun v => Qeq_bool v 0) ev) tv) i =
  Some (if Qeq_bool e 0 then f t else t).
Proof.
  revert ev tv. induction i as [|i IH]; intros [|e0 ev] [|t0 tv]; simpl; try discriminate.
  - intros [= ->] [= ->]. reflexivity.
  - apply IH.
Qed.

Lemma Qopp_zero_id (q : Q) : Qeq_bool q 0 = true -> Qopp q = q.
Proof.
  destruct q as [n d]. unfold Qeq_bool, Qopp. simpl.
  intros H. apply Z.eqb_eq in H. rewrite Z.mul_1_r in H. subst n. reflexivity.
Qed.

(** Zero is its own opposite in every dtype. *)
Lemma neg_cell_zero k st (q : Q) : Qeq_bool q 0 = true -> neg_cell k st q = q.
Proof.
  intros H. unfold neg_cell. destruct k, st; try (apply Qopp_zero_id; assumption).
  - match goal with |- context [Qeq_bool q (inject_Z ?z)] =>
      destruct (Qeq_bool q (inject_Z z)) end;
      [reflexivity|apply Qopp_zero_id; assumption].
  - rewrite H. reflexivity.
Qed.

(** Where the dtype is signed, the opposite of a number that is not
    negative is the exact one. *)
Lemma neg_cell_signed (s : Series) (v : Q) :
  signed_dtype s -> (0 <= v)%Q -> neg_in s v = (- v)%Q.
Proof.
  intros Hs Hv. unfold neg_in, neg_cell, signed_dtype in *.
  destruct s as [k st vs]. cbn [dtype_of storage_of] in *.
  destruct k; [|reflexivity].
  destruct st as [|w|w]; try reflexivity.
  - destruct (Qeq_bool v _) eqn:E; [|reflexivity].
    exfalso. apply Qeq_bool_eq in E.
    assert (Hw : (0 < w)%Z)
      by (destruct Hs as [H|[H|(w' & Hw' & H)]];
          [discriminate H|discriminate H|injection H as ->; exact Hw']).
    assert (Hp : (0 < 2 ^ (w - 1))%Z) by (apply Z.pow_pos_nonneg; lia).
    rewrite E in Hv. unfold Qle in Hv. simpl in Hv. lia.
  - exfalso. destruct Hs as [H|[H|(w' & _ & H)]]; discriminate H.
Qed.

(** Negating a column where it is itself zero changes nothing. *)
Lemma negate_where_self k st (vs : list Q) :
  negate_where (neg_cell k st) (map (fun v => Qeq_bool v 0) vs) vs = vs.
Proof.
  induction vs as [|v vs IH]; simpl; [reflexivity|].
  rewrite IH. destruct (Qeq_bool v 0) eqn:E; [rewrite neg_cell_zero by assumption|]; reflexivity.
Qed.

(** ** Selecting columns *)

Lemma pick_app a b cols :
  pick (a ++ b) cols =
  match pick a cols with
  | Ok la => match pick b cols with Ok lb => Ok (la ++ lb) | Raise e => Raise e end
  | Raise e => Raise e
  end.
Proof.
  induction a as [|n a IH]; simpl.
  - destruct (pick b cols); reflexivity.
  - destruct (lookup_col n cols); [|reflexivity].
    rewrite IH. destruct (pick a cols); [|reflexivity].
    destruct (pick b cols); reflexivity.
Qed.

(** Asking for names the frame has never fails. *)
Lemma pick_total names cols :
  (forall n, In n names -> In n (map fst cols)) ->
  exists l, pick names cols = Ok l /\ map fst l = names /\
            forall n s, In (n, s) l -> lookup_col n cols = Some s.
Proof.
  induction names as [|n names IH]; intros Hin; simpl.
  - exists []. repeat split. intros ? ? [].
  - destruct (lookup_col n cols) as [s|] eqn:E.
    + destruct IH as (l & -> & Hn & Hl); [intros; apply Hin; right; assumption|].
      exists ((n, s) :: l). repeat split; [simpl; congruence|].
      intros n' s' [[= <- <-]|H]; auto.
    + exfalso. apply lookup_col_None in E. apply E, Hin. left; reflexivity.
Qed.

Lemma In_lookup n s cols :
  List.NoDup (map fst cols) -> In (n, s) cols -> lookup_col n cols = Some s.
Proof.
  induction cols as [|[n0 s0] rest IH]; simpl; [intros _ []|].
  intros Hnd [[= -> ->]|Hin].
  - rewrite String.eqb_refl. reflexivity.
  - inversion Hnd as [|? ? Hnot Hnd']; subst.
    destruct (String.eqb n0 n) eqn:E; [|auto].
    apply String.eqb_eq in E. subst n0. exfalso. apply Hnot.
    apply (in_map fst) in Hin. assumption.
Qed.

Lemma filter_names (P : string -> bool) (cols : list (string * Series)) :
  List.filter P (map fst cols) = map fst (List.filter (fun c => P (fst c)) cols).
Proof.
  induction cols as [|[n s] rest IH]; simpl; [reflexivity|].
  destruct (P n); simpl; congruence.
Qed.

(** Picking, out of [cols'], the names of the columns of [l] that satisfy
    [P] gives back those columns when [cols'] holds them unchanged. *)
Lemma pick_filter (P : string -> bool) (l cols' : list (string * Series)) :
  (forall n s, In (n, s) l -> P n = true -> lookup_col n cols' = Some s) ->
  pick (List.filter P (map fst l)) cols' = Ok (List.filter (fun c => P (fst c)) l).
Proof.
  induction l as [|[n s] rest IH]; intros H; simpl; [reflexivity|].
  destruct (P n) eqn:E; simpl.
  - rewrite (H n s) by (auto; left; reflexivity).
    rewrite IH; [reflexivity|]. intros; apply H; auto. right; assumption.
  - apply IH. intros; apply H; auto. right; assumption.
Qed.

(** ** What a run of survival_df does *)

Section Run.

Variables (t_col e_col label_col : string) (exclude_col : list string).
Variable d : DataFrame.

Let x_cols := List.filter (retained t_col e_col exclude_col) (column_names d).

Lemma survival_df_no_time :
  lookup_col t_col (columns d) = None ->
  survival_df t_col e_col label_col exclude_col d = (d, Raise (KeyError t_col)).
Proof.
  intros H. unfold survival_df, py_bind, get_columns, getitem, column.
  rewrite H. reflexivity.
Qed.

Lemma survival_df_no_event ts :
  lookup_col t_col (columns d) = Some ts ->
  lookup_col e_col (assign_col label_col ts (columns d)) = None ->
  survival_df t_col e_col label_col exclude_col d =
  (mkDataFrame (nrows d) (assign_col label_col ts (columns d)),
   Raise (KeyError e_col)).
Proof.
  intros Ht He. unfold survival_df, py_bind, get_columns, getitem, column, loc_set.
  rewrite Ht. simpl. rewrite He. reflexivity.
Qed.

Lemma survival_df_run ts es :
  lookup_col t_col (columns d) = Some ts ->
  lookup_col e_col (assign_col label_col ts (columns d)) = Some es ->
  let ys := with_values ts (negate_where (neg_in ts) (eq_zero es) (values ts)) in
  let cols2 := assign_col label_col ys (columns d) in
  survival_df t_col e_col label_col exclude_col d =
  (mkDataFrame (nrows d) cols2,
   match pick (x_cols ++ [label_col]) cols2 with
   | Ok l => Ok (mkDataFrame (nrows d) l)
   | Raise e => Raise e
   end).
Proof.
  intros Ht He ys cols2.
  unfold survival_df, py_bind, get_columns, getitem, column, loc_set,
    loc_get_mask, loc_set_mask, getitem_list.
  rewrite Ht. simpl. rewrite He. simpl.
  rewrite lookup_assign_eq. simpl. rewrite He, lookup_assign_eq. simpl.
  rewrite update_select_neg, replace_assign.
  change (neg_cell (dtype_of ts) (storage_of ts)) with (neg_in ts).
  fold ys. fold cols2. unfold x_cols, retained, column_names.
  destruct (pick _ cols2); reflexivity.
Qed.

(** Once both columns are found the call returns: the names it selects
    are all there. *)
Lemma survival_df_picks ys :
  exists xs,
    pick (x_cols ++ [label_col]) (assign_col label_col ys (columns d)) =
      Ok (xs ++ [(label_col, ys)]) /\
    pick x_cols (assign_col label_col ys (columns d)) = Ok xs /\
    map fst xs = x_cols.
Proof.
  destruct (pick_total x_cols (assign_col label_col ys (columns d)))
    as (xs & Hp & Hn & _).
  - intros n Hn. unfold x_cols in Hn. apply filter_In in Hn as [Hn _].
    rewrite names_assign. apply in_or_app. left. exact Hn.
  - exists xs. rewrite pick_app, Hp. simpl. rewrite lookup_assign_eq. auto.
Qed.

End Run.

Lemma retained_iff t_col e_col exclude_col c :
  retained t_col e_col exclude_col c = true <->
  c <> t_col /\ c <> e_col /\ ~ In c exclude_col.
Proof.
  unfold retained. rewrite negb_true_iff, <- not_true_iff_false, mem_str_In.
  simpl. intuition congruence.
Qed.

(** With both columns present the call returns.  The labels are the times,
    negated where the event cell is zero; when the label is written over the
    event column itself, the mask is read from the times just written, and
    no label differs from its time. *)
Lemma survival_df_returns t_col e_col label_col exclude_col d ts es :
  lookup_col t_col (columns d) = Some ts ->
  lookup_col e_col (columns d) = Some es ->
  let ys :=
    with_values ts
      (if String.eqb label_col e_col then values ts
       else negate_where (neg_in ts) (eq_zero es) (values ts)) in
  exists xs,
    survival_df t_col e_col label_col exclude_col d =
      (mkDataFrame (nrows d) (assign_col label_col ys (columns d)),
       Ok (mkDataFrame (nrows d) (xs ++ [(label_col, ys)]))) /\
    pick (List.filter (retained t_col e_col exclude_col) (column_names d))
         (assign_col label_col ys (columns d)) = Ok xs /\
    map fst xs = List.filter (retained t_col e_col exclude_col) (column_names d).
Proof.
  intros Ht He ys.
  destruct (survival_df_picks t_col e_col label_col exclude_col d ys)
    as (xs & Hall & Hx & Hn).
  exists xs. split; [|split; assumption].
  destruct (String.eqb label_col e_col) eqn:E.
  - apply String.eqb_eq in E. subst e_col.
    rewrite (survival_df_run t_col label_col label_col exclude_col d ts ts Ht)
      by apply lookup_assign_eq.
    unfold eq_zero, neg_in. rewrite negate_where_self.
    fold ys. rewrite Hall. reflexivity.
  - apply String.eqb_neq in E.
    rewrite (survival_df_run t_col e_col label_col exclude_col d ts es Ht)
      by (rewrite lookup_assign_ne; assumption).
    fold ys. rewrite Hall. reflexivity.
Qed.

Lemma wf_column_length d c s :
  wf d -> lookup_col c (columns d) = Some s -> List.length (values s) = nrows d.
Proof.
  intros [_ Hlen] H. apply lookup_col_In in H.
  rewrite List.Forall_forall in Hlen. apply (Hlen (c, s) H).
Qed.

Lemma nth_error_lt {A} (l : list A) i :
  (i < List.length l)%nat -> exists x, nth_error l i = Some x.
Proof.
  intros H. destruct (nth_error l i) eqn:E; [eauto|].
  apply nth_error_None in E. lia.
Qed.

Lemma nth_error_Forall {A} (P : A -> Prop) (l : list A) i x :
  Forall P l -> nth_error l i = Some x -> P x.
Proof.
  intros H E. rewrite List.Forall_forall in H. apply H. eapply nth_error_In; eassumption.
Qed.

(** ** survival_df: the label column *)

(** C1 (as amended): for a valid table (times non-negative, events 0 or 1)
    whose times have a signed dtype, and a label name other than the event
    column's that is new or names a column of the dtype of the times, every
    row of the returned table carries, in its last column, the time when the
    event is 1 and the negated time when the event is 0; so the absolute
    value of the label is the time, the sign tells the two apart whenever the
    time is positive, and the label is 0 when the time is 0. *)
Theorem survival_df_label_encoding t_col e_col label_col exclude_col d ts es :
  wf d ->
  lookup_col t_col (columns d) = Some ts ->
  lookup_col e_col (columns d) = Some es ->
  signed_dtype ts ->
  plain_write (columns d) label_col ts ->
  Forall (fun v => (0 <= v)%Q) (values ts) ->
  Forall (fun v => (v == 0)%Q \/ (v == 1)%Q) (values es) ->
  label_col <> e_col ->
  exists xs ys,
    snd (survival_df t_col e_col label_col exclude_col d) =
      Ok (mkDataFrame (nrows d) (xs ++ [(label_col, ys)])) /\
    same_dtype ys ts /\
    forall i, (i < nrows d)%nat ->
      exists ti ei y,
        nth_error (values ts) i = Some ti /\
        nth_error (values es) i = Some ei /\
        nth_error (values ys) i = Some y /\
        ((ei == 1)%Q -> y = ti) /\
        ((ei == 0)%Q -> y = (- ti)%Q) /\
        (Qabs y == ti)%Q /\
        ((0 < ti)%Q ->
           ((0 < y)%Q <-> (ei == 1)%Q) /\ ((y < 0)%Q <-> (ei == 0)%Q)) /\
        ((ti == 0)%Q -> (y == 0)%Q).
Proof.
  intros Hwf Ht He Hsigned _ Htime Hevent Hne.
  destruct (survival_df_returns t_col e_col label_col exclude_col d ts es Ht He)
    as (xs & Hrun & _).
  apply String.eqb_neq in Hne. rewrite Hne in Hrun.
  eexists xs, _. split; [rewrite Hrun; reflexivity|].
  split; [split; reflexivity|].
  intros i Hi. simpl.
  destruct (nth_error_lt (values ts) i) as [ti Hti];
    [rewrite (wf_column_length d t_col ts Hwf Ht); exact Hi|].
  destruct (nth_error_lt (values es) i) as [ei Hei];
    [rewrite (wf_column_length d e_col es Hwf He); exact Hi|].
  exists ti, ei, (if Qeq_bool ei 0 then (- ti)%Q else ti).
  split; [exact Hti|]. split; [exact Hei|].
  pose proof (nth_error_Forall _ _ _ _ Htime Hti) as Hpos. simpl in Hpos.
  pose proof (nth_error_Forall _ _ _ _ Hevent Hei) as Hbin. simpl in Hbin.
  split.
  { unfold eq_zero. rewrite (negate_where_nth _ _ _ i ei ti Hei Hti).
    rewrite (neg_cell_signed ts ti Hsigned Hpos). reflexivity. }
  destruct (Qeq_bool ei 0) eqn:E.
  - apply Qeq_bool_eq in E.
    split; [intros; lra|]. split; [reflexivity|].
    split; [rewrite Qabs_opp; apply Qabs_pos; exact Hpos|].
    split; [intros; split; split; intros; lra|intros; lra].
  - assert (Hnz : ~ (ei == 0)%Q)
      by (intros H0; apply Qeq_eq_bool in H0; congruence).
    assert (H1 : (ei == 1)%Q) by tauto.
    split; [reflexivity|]. split; [intros; contradiction|].
    split; [apply Qabs_pos; exact Hpos|].
    split; [intros; split; split; intros; try lra; contradiction|intros; lra].
Qed.

Ltac nodup_strings :=
  repeat (apply List.NoDup_cons; [simpl; intuition discriminate|]);
  apply List.NoDup_nil.

Ltac forall_cells :=
  repeat (apply List.Forall_cons; [simpl; try reflexivity; try lra; auto|]);
  apply List.Forall_nil.

Ltac wf_table := split; [nodup_strings|forall_cells].

Lemma survival_df_label_encoding_witness :
  exists xs ys,
    snd (survival_df "t" "e" "Y" [] example_table) =
      Ok (mkDataFrame (nrows example_table) (xs ++ [("Y", ys)])) /\
    same_dtype ys (num [5; 10]%Q) /\
    forall i, (i < nrows example_table)%nat ->
      exists ti ei y,
        nth_error [5; 10]%Q i = Some ti /\
        nth_error [1; 0]%Q i = Some ei /\
        nth_error (values ys) i = Some y /\
        ((ei == 1)%Q -> y = ti) /\
        ((ei == 0)%Q -> y = (- ti)%Q) /\
        (Qabs y == ti)%Q /\
        ((0 < ti)%Q ->
           ((0 < y)%Q <-> (ei == 1)%Q) /\ ((y < 0)%Q <-> (ei == 0)%Q)) /\
        ((ti == 0)%Q -> (y == 0)%Q).
Proof.
  apply (survival_df_label_encoding "t" "e" "Y" [] example_table
           (num [5; 10]%Q) (num [1; 0]%Q)).
  - wf_table.
  - reflexivity.
  - reflexivity.
  - right; left; reflexivity.
  - exact I.
  - forall_cells.
  - forall_cells; right; reflexivity.
  - discriminate.
Defined.

(** C1, as stated, fails on a valid table whose times are unsigned
    integers: NumPy negates in the dtype of the column, so the censored
    subject at time 10 is labelled 2^64 - 10, which is neither -10 nor of
    absolute value 10. *)
Lemma survival_df_label_not_negated :
  wf unsigned_table /\
  lookup_col "t" (columns unsigned_table) =
    Some (mkSeriesOf Numeric (UInt 64) [10]%Q) /\
  lookup_col "e" (columns unsigned_table) = Some (num [0]%Q) /\
  snd (survival_df "t" "e" "Y" [] unsigned_table) =
    Ok (mkDataFrame 1
          [("Y", mkSeriesOf Numeric (UInt 64) [18446744073709551606]%Q)]) /\
  ~ (18446744073709551606 == - 10)%Q /\
  ~ (Qabs 18446744073709551606 == 10)%Q.
Proof.
  split; [wf_table|]. repeat split; try reflexivity; intros H; discriminate H.
Qed.

(** It fails, too, when the label is written over the event column: the
    mask is then read from the times just written, and the censored subject
    at time 10 is labelled 10, not -10. *)
Lemma survival_df_label_over_event_column :
  wf censored_table /\
  lookup_col "t" (columns censored_table) = Some (num [10]%Q) /\
  lookup_col "e" (columns censored_table) = Some (num [0]%Q) /\
  snd (survival_df "t" "e" "e" [] censored_table) =
    Ok (mkDataFrame 1 [("e", num [10]%Q)]) /\
  ~ (10 == - 10)%Q.
Proof.
  split; [wf_table|]. repeat split; try reflexivity. intros H; lra.
Qed.



(** ** survival_df: the columns returned *)

(** C3: on a well-formed table that has the time and event columns, and
    with a label name that is not one of the retained covariates, the
    returned table consists of the input's columns other than the time
    column, the event column and the excluded ones, with their contents and
    in their original order, followed by the label column. *)
Theorem survival_df_columns t_col e_col label_col exclude_col d ts es :
  wf d ->
  lookup_col t_col (columns d) = Some ts ->
  lookup_col e_col (columns d) = Some es ->
  ~ (In label_col (column_names d) /\
     retained t_col e_col exclude_col label_col = true) ->
  exists ys,
    snd (survival_df t_col e_col label_col exclude_col d) =
    Ok (mkDataFrame (nrows d)
          (List.filter (fun c => retained t_col e_col exclude_col (fst c)) (columns d)
           ++ [(label_col, ys)])).
Proof.
  intros [Hnd _] Ht He Hfree.
  destruct (survival_df_returns t_col e_col label_col exclude_col d ts es Ht He)
    as (xs & Hrun & Hpick & _).
  eexists. rewrite Hrun. simpl. do 3 f_equal.
  unfold column_names in Hpick. rewrite pick_filter in Hpick.
  - injection Hpick as <-. reflexivity.
  - intros n s Hin Hkeep. rewrite lookup_assign_ne.
    + apply In_lookup; assumption.
    + intros <-. apply Hfree. split; [|assumption].
      unfold column_names. apply (in_map fst) in Hin. exact Hin.
Qed.

Lemma survival_df_columns_witness :
  exists ys,
    snd (survival_df "t" "e" "Y" [] example_table) =
    Ok (mkDataFrame 2 ([ ("x_0", num [1; 3]); ("x_1", num [2; 4]) ]%Q ++ [("Y", ys)])).
Proof.
  apply (survival_df_columns "t" "e" "Y" [] example_table
           (num [5; 10]%Q) (num [1; 0]%Q)).
  - wf_table.
  - reflexivity.
  - reflexivity.
  - simpl. intuition discriminate.
Defined.

(** ** survival_df: the caller's frame *)

(** C2, as stated, fails: after the call on the spec's example the caller's
    table has a fifth column, [Y]. *)
Lemma survival_df_mutates_input :
  wf example_table /\
  fst (survival_df "t" "e" "Y" [] example_table) =
    mkDataFrame 2
      [ ("x_0", num [1; 3]); ("x_1", num [2; 4]);
        ("t", num [5; 10]); ("e", num [1; 0]); ("Y", num [5; -10]) ]%Q /\
  fst (survival_df "t" "e" "Y" [] example_table) <> example_table.
Proof.
  split; [wf_table|]. split; [reflexivity|]. intros H. discriminate H.
Qed.

(** C2 (as amended): the call writes into the caller's table, and the label
    column is all it writes.  The row count and every column under another
    name are as before; when the call returns, the caller's table has the
    label column holding the returned labels, in place if a column of that
    name existed and appended as the last column otherwise. *)
Theorem survival_df_frame t_col e_col label_col exclude_col d :
  wf d ->
  let d' := fst (survival_df t_col e_col label_col exclude_col d) in
  nrows d' = nrows d /\
  (forall c, c <> label_col ->
     lookup_col c (columns d') = lookup_col c (columns d)) /\
  (forall out, snd (survival_df t_col e_col label_col exclude_col d) = Ok out ->
     exists xs ys,
       columns out = xs ++ [(label_col, ys)] /\
       lookup_col label_col (columns d') = Some ys /\
       column_names d' =
         column_names d ++
         match lookup_col label_col (columns d) with
         | Some _ => []
         | None => [label_col]
         end).
Proof.
  intros _.
  destruct (lookup_col t_col (columns d)) as [ts|] eqn:Ht.
  2: { rewrite survival_df_no_time by assumption. simpl.
       repeat split; auto. intros out [=]. }
  destruct (lookup_col e_col (assign_col label_col ts (columns d))) as [es|] eqn:He.
  2: { rewrite (survival_df_no_event _ _ _ _ _ ts) by assumption. simpl.
       repeat split.
       - intros c Hc. apply lookup_assign_ne. congruence.
       - intros out [=]. }
  rewrite (survival_df_run _ _ _ _ _ ts es) by assumption.
  set (ys := with_values _ _).
  destruct (survival_df_picks t_col e_col label_col exclude_col d ys)
    as (xs & -> & _ & _).
  simpl. repeat split.
  - intros c Hc. apply lookup_assign_ne. congruence.
  - intros out [= <-]. exists xs, ys. simpl.
    split; [reflexivity|]. split; [apply lookup_assign_eq|].
    unfold column_names. simpl. apply names_assign.
Qed.

Lemma survival_df_frame_witness :
  exists xs ys,
    [ ("x_0", num [1; 3]); ("x_1", num [2; 4]); ("Y", num [5; -10]) ]%Q =
      xs ++ [("Y", ys)] /\
    lookup_col "Y" (columns (fst (survival_df "t" "e" "Y" [] example_table)))
      = Some ys /\
    column_names (fst (survival_df "t" "e" "Y" [] example_table)) =
      column_names example_table ++ ["Y"].
Proof.
  assert (Hwf : wf example_table) by wf_table.
  apply (proj2 (proj2 (survival_df_frame "t" "e" "Y" [] example_table Hwf))
           (mkDataFrame 2
              [ ("x_0", num [1; 3]); ("x_1", num [2; 4]); ("Y", num [5; -10]) ]%Q)).
  reflexivity.
Defined.

(** ** survival_df: a label name that is already a covariate *)

(** C8, as stated, fails: asked to call the label [x_0], the call returns
    normally, and the table it returns has two columns named [x_0], both
    holding the labels. *)
Lemma survival_df_collision_returns :
  wf collision_table /\
  snd (survival_df "t" "e" "x_0" [] collision_table) =
    Ok (mkDataFrame 2 [ ("x_0", num [5; -10]); ("x_0", num [5; -10]) ]%Q).
Proof. split; [wf_table|reflexivity]. Qed.

(** C8 (as amended): when the label name is that of a retained covariate of
    a table that has the time and event columns, and that covariate has the
    dtype of the times, the call raises nothing.  It returns the retained
    covariate names in their order followed by the label name once more, and
    the covariate of that name holds the labels too, in the returned table
    and in the caller's: its own contents are overwritten.  The labels are
    the times, with the opposite (in the dtype of the times) where the event
    cell is zero. *)
Theorem survival_df_collision t_col e_col label_col exclude_col d ts es :
  wf d ->
  lookup_col t_col (columns d) = Some ts ->
  lookup_col e_col (columns d) = Some es ->
  In label_col (column_names d) ->
  retained t_col e_col exclude_col label_col = true ->
  plain_write (columns d) label_col ts ->
  exists xs ys,
    survival_df t_col e_col label_col exclude_col d =
      (mkDataFrame (nrows d) (replace_col label_col ys (columns d)),
       Ok (mkDataFrame (nrows d) (xs ++ [(label_col, ys)]))) /\
    map fst xs = List.filter (retained t_col e_col exclude_col) (column_names d) /\
    In (label_col, ys) xs /\
    ys = with_values ts (negate_where (neg_in ts) (eq_zero es) (values ts)).
Proof.
  intros _ Ht He Hin Hkeep _.
  destruct (survival_df_returns t_col e_col label_col exclude_col d ts es Ht He)
    as (xs & Hrun & Hpick & Hnames).
  assert (Hne : String.eqb label_col e_col = false).
  { apply String.eqb_neq. apply retained_iff in Hkeep. tauto. }
  rewrite Hne in *.
  eexists xs, _. split.
  { rewrite Hrun. f_equal. f_equal. unfold assign_col.
    destruct (lookup_col label_col (columns d)) eqn:E; [reflexivity|].
    exfalso. apply lookup_col_None in E. apply E. exact Hin. }
  split; [exact Hnames|]. split; [|reflexivity].
  assert (Hx : In label_col (map fst xs)).
  { rewrite Hnames. apply filter_In. auto. }
  apply in_map_iff in Hx as ([n s] & Hn & Hs). simpl in Hn. subst n.
  destruct (pick_total
              (List.filter (retained t_col e_col exclude_col) (column_names d))
              (assign_col label_col
                 (with_values ts
                    (negate_where (neg_in ts) (eq_zero es) (values ts)))
                 (columns d))) as (l & Hl & _ & Hall).
  - intros n Hn. apply filter_In in Hn as [Hn _].
    rewrite names_assign. apply in_or_app. left. exact Hn.
  - rewrite Hpick in Hl. injection Hl as <-.
    specialize (Hall _ _ Hs). rewrite lookup_assign_eq in Hall.
    injection Hall as <-. exact Hs.
Qed.

Lemma survival_df_collision_witness :
  exists xs ys,
    survival_df "t" "e" "x_0" [] collision_table =
      (mkDataFrame 2 (replace_col "x_0" ys (columns collision_table)),
       Ok (mkDataFrame 2 (xs ++ [("x_0", ys)]))) /\
    map fst xs = ["x_0"] /\
    In ("x_0", ys) xs /\
    ys = num [5; -10]%Q.
Proof.
  apply (survival_df_collision "t" "e" "x_0" [] collision_table
           (num [5; 10]%Q) (num [1; 0]%Q)).
  - wf_table.
  - reflexivity.
  - reflexivity.
  - simpl. auto.
  - reflexivity.
  - split; reflexivity.
Defined.

(** ** What a run of survival_stats prints *)

Section StatsRun.

Variable plot_km_survf : DataFrame -> string -> string -> result unit.
Variables (d : DataFrame) (t_col e_col : string) (plot : bool).

Lemma survival_stats_no_event :
  lookup_col e_col (columns d) = None ->
  survival_stats plot_km_survf d t_col e_col plot =
  (preamble d t_col e_col, Raise (KeyError e_col)).
Proof.
  intros He. unfold survival_stats, column. rewrite He. reflexivity.
Qed.

Lemma survival_stats_no_ratio es err :
  lookup_col e_col (columns d) = Some es ->
  true_divide (dtype_of es) (series_sum es) (nrows d) = Raise err ->
  survival_stats plot_km_survf d t_col e_col plot =
  (preamble d t_col e_col, Raise err).
Proof.
  intros He Hr. unfold survival_stats, column. rewrite He. cbn.
  rewrite Hr. reflexivity.
Qed.

Lemma survival_stats_no_time es r :
  lookup_col e_col (columns d) = Some es ->
  true_divide (dtype_of es) (series_sum es) (nrows d) = Ok r ->
  lookup_col t_col (columns d) = None ->
  survival_stats plot_km_survf d t_col e_col plot =
  (preamble d t_col e_col ++ [ratio_line r], Raise (KeyError t_col)).
Proof.
  intros He Hr Ht. unfold survival_stats, column. rewrite He. cbn.
  rewrite Hr. cbn. rewrite Ht. reflexivity.
Qed.

Lemma survival_stats_full es r ts :
  lookup_col e_col (columns d) = Some es ->
  true_divide (dtype_of es) (series_sum es) (nrows d) = Ok r ->
  lookup_col t_col (columns d) = Some ts ->
  survival_stats plot_km_survf d t_col e_col plot =
  (preamble d t_col e_col ++ body r ts,
   if plot then plot_km_survf d "t" "e" else Ok tt).
Proof.
  intros He Hr Ht. unfold survival_stats, column. rewrite He. cbn.
  rewrite Hr. cbn. rewrite Ht. cbn.
  destruct plot; [destruct (plot_km_survf d "t" "e")|]; reflexivity.
Qed.

End StatsRun.


(** ** Binary64 rounding *)

Lemma pow2_pos (k : Z) : (0 < Qpower 2 k)%Q.
Proof. apply Qpower_0_lt. reflexivity. Qed.

Lemma pow2_succ (k : Z) : (Qpower 2 (k + 1) == Qpower 2 k * 2)%Q.
Proof. rewrite Qpower_plus by discriminate. reflexivity. Qed.

Lemma pow2_Z (k : Z) : (0 <= k)%Z -> (inject_Z (2 ^ k) == Qpower 2 k)%Q.
Proof. intros H. rewrite Zpower_Qpower by assumption. reflexivity. Qed.

(** A positive integer lies between the power of two of its bit length and
    the next one. *)
Lemma log2_bounds (n : Z) :
  (0 < n)%Z ->
  (Qpower 2 (Z.log2 n) <= inject_Z n)%Q /\
  (inject_Z n < Qpower 2 (Z.log2 n) * 2)%Q.
Proof.
  intros Hn. destruct (Z.log2_spec n Hn) as [Hlo Hhi].
  pose proof (Z.log2_nonneg n) as H0.
  rewrite <- pow2_succ, <- !pow2_Z by lia.
  rewrite <- Zle_Qle, <- Zlt_Qlt. rewrite Z.add_1_r. auto.
Qed.

Lemma ilog2_spec (a : Q) :
  (0 < a)%Q ->
  (Qpower 2 (ilog2 a) <= a)%Q /\ (a < Qpower 2 (ilog2 a + 1))%Q.
Proof.
  intros Ha. unfold ilog2.
  set (n := Qnum a). set (d := Zpos (Qden a)).
  assert (Hn : (0 < n)%Z).
  { unfold Qlt in Ha. simpl in Ha. unfold n. lia. }
  assert (Hd : (0 < d)%Z) by (unfold d; lia).
  destruct (log2_bounds n Hn) as [Hn1 Hn2].
  destruct (log2_bounds d Hd) as [Hd1 Hd2].
  assert (Had : (a * inject_Z d == inject_Z n)%Q).
  { unfold n, d. destruct a as [an ad]. unfold Qeq. simpl.
    rewrite Pos.mul_1_r. ring. }
  assert (Hk : (Qpower 2 (Z.log2 n - Z.log2 d) * Qpower 2 (Z.log2 d)
                == Qpower 2 (Z.log2 n))%Q).
  { rewrite <- Qpower_plus by discriminate. f_equiv. lia. }
  set (k := (Z.log2 n - Z.log2 d)%Z) in *.
  pose proof (pow2_pos k) as Hkpos.
  pose proof (pow2_pos (Z.log2 d)) as Hbpos.
  assert (Hdpos : (0 < inject_Z d)%Q).
  { change 0%Q with (inject_Z 0). rewrite <- Zlt_Qlt. exact Hd. }
  destruct (Qle_bool (Qpower 2 k) a) eqn:E.
  - apply Qle_bool_iff in E. split; [exact E|].
    rewrite pow2_succ.
    apply (Qmult_lt_r _ _ (inject_Z d) Hdpos).
    rewrite Had.
    apply (Qlt_le_trans _ (Qpower 2 (Z.log2 n) * 2)); [exact Hn2|].
    rewrite <- Hk.
    assert (Hm : (Qpower 2 k * Qpower 2 (Z.log2 d)
                  <= Qpower 2 k * inject_Z d)%Q)
      by (apply Qmult_le_l; assumption).
    lra.
  - assert (Hlt : (a < Qpower 2 k)%Q).
    { apply Qnot_le_lt. intros H. apply Qle_bool_iff in H. congruence. }
    replace (k - 1 + 1)%Z with k by lia. split; [|exact Hlt].
    pose proof (pow2_succ (k - 1)) as Hs.
    replace (k - 1 + 1)%Z with k in Hs by lia.
    pose proof (pow2_pos (k - 1)) as Hepos.
    apply (Qmult_le_r _ _ (inject_Z d) Hdpos).
    rewrite Had.
    apply (Qle_trans _ (Qpower 2 (Z.log2 n))); [|exact Hn1].
    rewrite <- Hk, Hs.
    assert (Hm : (Qpower 2 (k - 1) * inject_Z d
                  <= Qpower 2 (k - 1) * (Qpower 2 (Z.log2 d) * 2))%Q)
      by (apply Qmult_le_l; [assumption|lra]).
    lra.
Qed.

Lemma round_half_even_close (x : Q) :
  (Qabs (inject_Z (round_half_even x) - x) <= 1 # 2)%Q.
Proof.
  unfold round_half_even.
  pose proof (Qfloor_le x) as Hlo. pose proof (Qlt_floor x) as Hhi.
  rewrite inject_Z_plus in Hhi. change (inject_Z 1) with 1%Q in Hhi.
  destruct (Qcompare_spec (x - inject_Z (Qfloor x)) (1 # 2)) as [E|L|G].
  - destruct (Z.even (Qfloor x)).
    + apply Qabs_case; intros; lra.
    + rewrite inject_Z_plus. change (inject_Z 1) with 1%Q.
      apply Qabs_case; intros; lra.
  - apply Qabs_case; intros; lra.
  - rewrite inject_Z_plus. change (inject_Z 1) with 1%Q.
    apply Qabs_case; intros; lra.
Qed.

(** Rounding to an integer does not cross an integer. *)
Lemma round_half_even_le (x : Q) (K : Z) :
  (x <= inject_Z K)%Q -> (round_half_even x <= K)%Z.
Proof.
  intros H. pose proof (round_half_even_close x) as Hc.
  apply Qabs_Qle_condition in Hc. destruct Hc as [_ Hc].
  assert (L : (inject_Z (round_half_even x) < inject_Z (K + 1))%Q).
  { rewrite inject_Z_plus. change (inject_Z 1) with 1%Q. lra. }
  rewrite <- Zlt_Qlt in L. lia.
Qed.

Lemma round_half_even_ge (x : Q) (K : Z) :
  (inject_Z K <= x)%Q -> (K <= round_half_even x)%Z.
Proof.
  intros H. pose proof (round_half_even_close x) as Hc.
  apply Qabs_Qle_condition in Hc. destruct Hc as [Hc _].
  assert (L : (inject_Z (K - 1) < inject_Z (round_half_even x))%Q).
  { unfold Z.sub. rewrite inject_Z_plus, inject_Z_opp.
    change (inject_Z 1) with 1%Q. lra. }
  rewrite <- Zlt_Qlt in L. lia.
Qed.

Lemma round_half_even_Z (x : Q) (w : Z) :
  (x == inject_Z w)%Q -> round_half_even x = w.
Proof.
  intros H. apply Z.le_antisymm.
  - apply round_half_even_le. lra.
  - apply round_half_even_ge. lra.
Qed.

Lemma b64_comp (q q' : Q) : (q == q')%Q -> b64 q = b64 q'.
Proof. intros H. unfold b64. rewrite (Qred_complete q q' H). reflexivity. Qed.

(** The inverse of a power of two of non-positive exponent is an integer. *)
Lemma pow2_inv (u : Z) :
  (u <= 0)%Z -> (/ Qpower 2 u == inject_Z (2 ^ (- u)))%Q.
Proof.
  intros H. rewrite <- Qpower_opp. rewrite pow2_Z by lia. reflexivity.
Qed.

(** Unfolding [b64] at a positive number that does not overflow. *)
Lemma b64_pos (q : Q) :
  (0 < q)%Q ->
  let u := ulp_exp (Qabs (Qred q)) in
  let m := round_half_even (Qabs (Qred q) / Qpower 2 u) in
  (inject_Z m * Qpower 2 u < Qpower 2 1024)%Q ->
  b64 q = Fin (Qred (inject_Z m * Qpower 2 u)).
Proof.
  intros Hq u m Hov. unfold b64. fold u. fold m.
  pose proof (Qred_correct q) as Hr.
  destruct (Qeq_bool (Qred q) 0) eqn:E0.
  { apply Qeq_bool_iff in E0. lra. }
  destruct (Qle_bool (Qpower 2 1024) (Qred (inject_Z m * Qpower 2 u))) eqn:E1.
  { apply Qle_bool_iff in E1. rewrite Qred_correct in E1. lra. }
  destruct (Qle_bool 0 (Qred q)) eqn:E2; [reflexivity|].
  assert (H : (0 <= Qred q)%Q) by lra.
  apply Qle_bool_iff in H. congruence.
Qed.

Lemma pow2_lt (n m : Z) : (n < m)%Z -> (Qpower 2 n < Qpower 2 m)%Q.
Proof. intros H. apply Qpower_lt_compat_l; [exact H|reflexivity]. Qed.

Lemma pow2_le (n m : Z) : (n <= m)%Z -> (Qpower 2 n <= Qpower 2 m)%Q.
Proof. intros H. apply Qpower_le_compat_l; [exact H|discriminate]. Qed.

(** A positive number below [2^j] has its unit in the last place at
    [2^(j-53)] or below (or at the smallest one there is). *)
Lemma ulp_exp_below (a : Q) (j : Z) :
  (0 < a)%Q -> (a < Qpower 2 j)%Q -> (ulp_exp a <= Z.max (j - 53) (-1074))%Z.
Proof.
  intros Ha Hj. destruct (ilog2_spec a Ha) as [Hlo _].
  assert (H : (ilog2 a < j)%Z).
  { apply (Qpower_lt_compat_l_inv 2); [|reflexivity]. lra. }
  unfold ulp_exp. lia.
Qed.

(** Rounding at a unit [2^u], [u <= 0], of a number between two integers:
    the result stays between them and is within half a unit. *)
Lemma round_at_ulp (a : Q) (u : Z) :
  (u <= 0)%Z -> (0 <= a)%Q ->
  let v := (inject_Z (round_half_even (a / Qpower 2 u)) * Qpower 2 u)%Q in
  (0 <= v)%Q /\
  (forall K : Z, (a <= inject_Z K)%Q -> (v <= inject_Z K)%Q) /\
  (forall w : Z, (a == inject_Z w)%Q -> (v == inject_Z w)%Q) /\
  (Qabs (v - a) <= (1 # 2) * Qpower 2 u)%Q.
Proof.
  intros Hu Ha v.
  pose proof (pow2_pos u) as HP. pose proof (pow2_inv u Hu) as HI.
  set (P := Qpower 2 u) in *. set (I := (2 ^ (- u))%Z) in *.
  assert (HIP : (inject_Z I * P == 1)%Q).
  { rewrite <- HI. field. lra. }
  set (x := (a / P)%Q) in *.
  assert (Hx : (x == a * inject_Z I)%Q).
  { unfold x, Qdiv. rewrite HI. reflexivity. }
  assert (HxP : (x * P == a)%Q).
  { unfold x. field. lra. }
  assert (HI0 : (0 <= inject_Z I)%Q).
  { rewrite <- HI. apply Qlt_le_weak, Qinv_lt_0_compat, HP. }
  set (m := round_half_even x) in *.
  assert (Hm0 : (0 <= m)%Z).
  { apply round_half_even_ge. change (inject_Z 0) with 0%Q.
    rewrite Hx. apply Qmult_le_0_compat; assumption. }
  assert (Hmul : forall K : Z, (inject_Z (K * I) * P == inject_Z K)%Q).
  { intros K. rewrite inject_Z_mult.
    rewrite <- Qmult_assoc, HIP. ring. }
  split; [|split; [|split]].
  - unfold v. apply Qmult_le_0_compat; [|lra].
    change 0%Q with (inject_Z 0). rewrite <- Zle_Qle. exact Hm0.
  - intros K HK. unfold v. fold x. fold m.
    assert (Hm : (m <= K * I)%Z).
    { apply round_half_even_le. rewrite Hx, inject_Z_mult.
      apply Qmult_le_compat_r; assumption. }
    rewrite <- (Hmul K). apply Qmult_le_compat_r; [|lra].
    rewrite <- Zle_Qle. exact Hm.
  - intros w Hw. unfold v. fold x. fold m.
    assert (Hm : m = (w * I)%Z).
    { apply round_half_even_Z. rewrite Hx, Hw, inject_Z_mult. reflexivity. }
    rewrite Hm. apply Hmul.
  - unfold v. fold x. fold m.
    pose proof (round_half_even_close x) as Hc. fold m in Hc.
    assert (E : (inject_Z m * P - a == (inject_Z m - x) * P)%Q)
      by (rewrite <- HxP; ring).
    rewrite E, Qabs_Qmult, (Qabs_pos P) by lra.
    apply Qmult_le_compat_r; [exact Hc|lra].
Qed.

(** Integers below 2^53 are binary64 numbers. *)
Lemma b64_exact_int (z : Z) :
  (0 <= z < 2 ^ 53)%Z ->
  exists x, b64 (inject_Z z) = Fin x /\ (x == inject_Z z)%Q.
Proof.
  intros [Hz0 Hz1].
  destruct (Z.eq_dec z 0%Z) as [->|Hnz].
  { exists 0%Q. split; reflexivity. }
  assert (Hq : (0 < inject_Z z)%Q).
  { change 0%Q with (inject_Z 0). rewrite <- Zlt_Qlt. lia. }
  set (a := Qabs (Qred (inject_Z z))).
  assert (Ha : (a == inject_Z z)%Q).
  { unfold a. rewrite Qred_correct. apply Qabs_pos. lra. }
  assert (Hlt : (a < Qpower 2 53)%Q).
  { rewrite Ha, <- pow2_Z by lia. rewrite <- Zlt_Qlt. exact Hz1. }
  assert (Hu : (ulp_exp a <= 0)%Z).
  { pose proof (ulp_exp_below a 53 ltac:(lra) Hlt). lia. }
  destruct (round_at_ulp a (ulp_exp a) Hu ltac:(lra)) as (_ & _ & Hex & _).
  specialize (Hex z Ha).
  eexists. split.
  - apply b64_pos; [exact Hq|]. fold a. rewrite Hex.
    apply (Qlt_trans _ (Qpower 2 53)); [lra|]. apply pow2_lt. lia.
  - rewrite Qred_correct. fold a. exact Hex.
Qed.

(** A column of 0/1 cells sums to the number of its ones. *)
Lemma binary_sum_int (vs : list Q) :
  Forall (fun v => (v == 0)%Q \/ (v == 1)%Q) vs ->
  exists z, (0 <= z <= Z.of_nat (List.length vs))%Z /\
            (fold_right Qplus 0 vs == inject_Z z)%Q.
Proof.
  induction 1 as [|v vs Hv _ (z & Hz & IH)]; simpl List.length; simpl fold_right.
  - exists 0%Z. split; [lia|reflexivity].
  - destruct Hv as [Hv|Hv].
    + exists z. split; [lia|]. rewrite Hv, IH. ring.
    + exists (z + 1)%Z. split; [lia|].
      rewrite Hv, IH, inject_Z_plus. change (inject_Z 1) with 1%Q. ring.
Qed.

Lemma true_divide_rows k total n :
  n <> O ->
  true_divide k total n = Ok (fdiv (b64 total) (b64 (inject_Z (Z.of_nat n)))).
Proof. destruct k, n; congruence || reflexivity. Qed.

(** A tie is rounded to the even neighbour. *)
Lemma round_half_even_tie (x : Q) :
  (Qabs (inject_Z (round_half_even x) - x) == 1 # 2)%Q ->
  Z.even (round_half_even x) = true.
Proof.
  unfold round_half_even.
  pose proof (Qfloor_le x) as Hlo. pose proof (Qlt_floor x) as Hhi.
  rewrite inject_Z_plus in Hhi. change (inject_Z 1) with 1%Q in Hhi.
  destruct (Qcompare_spec (x - inject_Z (Qfloor x)) (1 # 2)) as [E|L|G].
  - destruct (Z.even (Qfloor x)) eqn:Ev; [intros _; exact Ev|].
    intros _. rewrite Z.even_add, Ev. reflexivity.
  - intros H. exfalso. revert H. apply Qabs_case; intros; lra.
  - rewrite inject_Z_plus. change (inject_Z 1) with 1%Q.
    intros H. exfalso. revert H. apply Qabs_case; intros; lra.
Qed.

Lemma round_at_ulp_tie (a : Q) (u : Z) :
  let m := round_half_even (a / Qpower 2 u) in
  (Qabs (inject_Z m * Qpower 2 u - a) == (1 # 2) * Qpower 2 u)%Q ->
  Z.even m = true.
Proof.
  intros m H. apply round_half_even_tie. fold m.
  pose proof (pow2_pos u) as HP. set (P := Qpower 2 u) in *.
  assert (E : (inject_Z m * P - a == (inject_Z m - a / P) * P)%Q)
    by (field; lra).
  rewrite E, Qabs_Qmult, (Qabs_pos P) in H by lra.
  apply (Qmult_inj_r _ _ P); [lra|exact H].
Qed.

(** A number of the normal range, at most 1, rounds to the binary64 number
    nearest to it. *)
Lemma b64_unit_nearest (x : Q) :
  (Qpower 2 (-1022) <= x)%Q -> (x <= 1)%Q ->
  exists v, b64 x = Fin v /\ (0 <= v)%Q /\ (v <= 1)%Q /\ nearest_binary64 x v.
Proof.
  intros Hlo Hhi.
  pose proof (pow2_pos (-1022)) as Hmin.
  assert (Hx : (0 < x)%Q) by lra.
  set (a := Qabs (Qred x)).
  assert (Ha : (a == x)%Q).
  { unfold a. rewrite Qred_correct. apply Qabs_pos. lra. }
  destruct (ilog2_spec a ltac:(lra)) as [He1 He2].
  set (e := ilog2 a) in *.
  assert (Hge : (-1022 <= e)%Z).
  { assert (H : (-1022 < e + 1)%Z)
      by (apply (Qpower_lt_compat_l_inv 2); [lra|reflexivity]).
    lia. }
  assert (Hle0 : (e <= 0)%Z).
  { apply (Qpower_le_compat_l_inv 2); [|reflexivity].
    change (Qpower 2 0) with 1%Q. lra. }
  assert (Hu : ulp_exp a = (e - 52)%Z) by (unfold ulp_exp; fold e; lia).
  destruct (round_at_ulp a (ulp_exp a) ltac:(lia) ltac:(lra))
    as (H0 & Hle & _ & Hc).
  pose proof (round_at_ulp_tie a (ulp_exp a)) as Htie. cbv zeta in Htie.
  specialize (Hle 1%Z). change (inject_Z 1) with 1%Q in Hle.
  specialize (Hle ltac:(lra)).
  pose proof (pow2_succ (e - 53)) as Hs.
  replace (e - 53 + 1)%Z with (e - 52)%Z in Hs by lia.
  eexists. split; [|split; [|split]].
  - apply b64_pos; [exact Hx|]. fold a.
    apply (Qle_lt_trans _ 1); [exact Hle|].
    change 1%Q with (Qpower 2 0). apply pow2_lt. lia.
  - rewrite Qred_correct. fold a. exact H0.
  - rewrite Qred_correct. fold a. exact Hle.
  - right. split; [exact Hx|].
    exists e, (round_half_even (a / Qpower 2 (ulp_exp a))).
    split; [lia|]. split; [lra|]. split; [lra|].
    rewrite Qred_correct. fold a. rewrite <- Hu, <- Ha.
    split; [reflexivity|]. rewrite Hu in *. split.
    + eapply Qle_trans; [exact Hc|]. lra.
    + intros H. apply Htie. rewrite H. lra.
Qed.

(** The float quotient of a count of events by a row count is the binary64
    number nearest to the quotient. *)
Lemma fdiv_count_nearest (t : Q) (n : nat) (z : Z) :
  n <> O -> (Z.of_nat n < 2 ^ 53)%Z ->
  (0 <= z <= Z.of_nat n)%Z -> (t == inject_Z z)%Q ->
  exists q,
    fdiv (b64 t) (b64 (inject_Z (Z.of_nat n))) = Fin q /\
    (0 <= q)%Q /\ (q <= 1)%Q /\
    nearest_binary64 (t / inject_Z (Z.of_nat n)) q.
Proof.
  intros Hn Hbig Hz Ht.
  assert (HN : (0 < inject_Z (Z.of_nat n))%Q).
  { change 0%Q with (inject_Z 0). rewrite <- Zlt_Qlt. lia. }
  destruct (b64_exact_int z ltac:(lia)) as (x & Hx & Ex).
  destruct (b64_exact_int (Z.of_nat n) ltac:(lia)) as (y & Hy & Ey).
  rewrite (b64_comp _ _ Ht), Hx, Hy. unfold fdiv.
  destruct (Qeq_bool y 0) eqn:E0.
  { apply Qeq_bool_iff in E0. lra. }
  assert (Hquot : (x / y == t / inject_Z (Z.of_nat n))%Q)
    by (rewrite Ex, Ey, Ht; reflexivity).
  assert (Hhi : (t / inject_Z (Z.of_nat n) <= 1)%Q).
  { apply Qle_shift_div_r; [exact HN|]. rewrite Ht, Qmult_1_l.
    rewrite <- Zle_Qle. lia. }
  rewrite (b64_comp _ _ Hquot).
  destruct (Z.eq_dec z 0%Z) as [-> | Hnz].
  - assert (E : (t / inject_Z (Z.of_nat n) == 0)%Q).
    { rewrite Ht. unfold Qdiv. change (inject_Z 0) with 0%Q. ring. }
    rewrite (b64_comp _ _ E). exists 0%Q.
    split; [reflexivity|]. split; [lra|]. split; [lra|].
    left. split; [exact E|reflexivity].
  - apply b64_unit_nearest; [|exact Hhi].
    apply Qle_shift_div_l; [exact HN|].
    apply (Qle_trans _ 1).
    + assert (H53 : (inject_Z (Z.of_nat n) <= Qpower 2 53)%Q).
      { rewrite <- pow2_Z by lia. rewrite <- Zle_Qle. lia. }
      assert (Hp : (Qpower 2 (-1022) * Qpower 2 53 == Qpower 2 (-969))%Q).
      { rewrite <- Qpower_plus by discriminate. reflexivity. }
      pose proof (pow2_pos (-1022)) as Hm.
      assert (Hmul : (Qpower 2 (-1022) * inject_Z (Z.of_nat n)
                      <= Qpower 2 (-1022) * Qpower 2 53)%Q)
        by (apply Qmult_le_l; assumption).
      assert (Hs : (Qpower 2 (-969) <= Qpower 2 0)%Q) by (apply pow2_le; lia).
      change (Qpower 2 0) with 1%Q in Hs. lra.
    + rewrite Ht. change 1%Q with (inject_Z 1). rewrite <- Zle_Qle. lia.
Qed.

(** The sum of no cells is zero. *)
Lemma series_sum_nil (s : Series) : values s = [] -> series_sum s = 0%Q.
Proof.
  intros H. unfold series_sum. rewrite H.
  destruct (dtype_of s), (storage_of s); reflexivity.
Qed.

(** A sum of integer cells that stays small does not wrap around. *)
Lemma series_sum_small (s : Series) (z : Z) :
  (0 <= z < 2 ^ 53)%Z -> (total s == inject_Z z)%Q -> series_sum s = total s.
Proof.
  intros [Hz0 Hz1] Ht. unfold series_sum. fold (total s).
  assert (H0 : (0 <= total s)%Q).
  { rewrite Ht. change 0%Q with (inject_Z 0). rewrite <- Zle_Qle. exact Hz0. }
  assert (H63 : (total s < inject_Z (2 ^ 63))%Q).
  { rewrite Ht. rewrite <- Zlt_Qlt. lia. }
  assert (H64 : (total s < inject_Z (2 ^ 64))%Q).
  { rewrite Ht. rewrite <- Zlt_Qlt. lia. }
  assert (Hneg : (inject_Z (- 2 ^ 63) <= total s)%Q).
  { rewrite Ht. rewrite <- Zle_Qle. lia. }
  destruct (dtype_of s); [|reflexivity].
  destruct (storage_of s); [reflexivity| |].
  - unfold wrap_signed64.
    rewrite (proj2 (Qle_bool_iff _ _) Hneg).
    destruct (Qle_bool (inject_Z (2 ^ 63)) (total s)) eqn:E; [|reflexivity].
    apply Qle_bool_iff in E. lra.
  - unfold wrap_unsigned64.
    rewrite (proj2 (Qle_bool_iff _ _) H0).
    destruct (Qle_bool (inject_Z (2 ^ 64)) (total s)) eqn:E; [|reflexivity].
    apply Qle_bool_iff in E. lra.
Qed.

(** The sum of a column of 0/1 cells is the exact one. *)
Lemma series_sum_binary (s : Series) :
  Forall (fun v => (v == 0)%Q \/ (v == 1)%Q) (values s) ->
  (Z.of_nat (List.length (values s)) < 2 ^ 53)%Z ->
  series_sum s = total s /\
  exists z, (0 <= z <= Z.of_nat (List.length (values s)))%Z /\
            (total s == inject_Z z)%Q.
Proof.
  intros Hbin Hbig. destruct (binary_sum_int _ Hbin) as (z & Hz & Hsum).
  split; [|exists z; auto].
  apply (series_sum_small s z); [lia|exact Hsum].
Qed.

(** ** Rounding to hundredths *)

Lemma hundredths_unit (q : Q) :
  (0 <= q)%Q -> (q <= 1)%Q -> (0 <= hundredths q <= 100)%Z.
Proof.
  intros H0 H1. unfold hundredths. split.
  - apply round_half_even_ge. change (inject_Z 0) with 0%Q.
    rewrite (Qabs_pos q H0). lra.
  - apply round_half_even_le. change (inject_Z 100) with 100%Q.
    rewrite (Qabs_pos q H0). lra.
Qed.

Lemma hundredths_nearest (q : Q) :
  (0 <= q)%Q -> nearest_hundredth q (hundredths q).
Proof.
  intros H0. unfold nearest_hundredth, hundredths.
  assert (E : (Qabs q * 100 == q * 100)%Q) by (rewrite (Qabs_pos q H0); reflexivity).
  split.
  - rewrite <- E. apply round_half_even_close.
  - rewrite <- E. apply round_half_even_tie.
Qed.

(** From 0.00 to 1.00, ["%.2f"] writes the hundredths out digit by digit. *)
Lemma two_decimals_spec (h : Z) :
  (0 <= h <= 100)%Z ->
  (format_d (h / 100) ++ "." ++ two_digits (h mod 100))%string = two_decimals h.
Proof.
  intros Hh. rewrite <- (Z2Nat.id h) by lia.
  assert (Hn : (Z.to_nat h <= 100)%nat) by lia.
  revert Hn. generalize (Z.to_nat h) as n. intros n.
  do 101 (destruct n as [|n]; [intros _; vm_compute; reflexivity|]).
  intros Hn. exfalso. lia.
Qed.

Lemma format_2f_unit (q : Q) :
  (0 <= q)%Q -> (q <= 1)%Q -> format_2f (Fin q) = two_decimals (hundredths q).
Proof.
  intros H0 H1. unfold format_2f.
  rewrite (proj2 (Qle_bool_iff _ _) H0).
  apply (two_decimals_spec _ (hundredths_unit q H0 H1)).
Qed.

(** ** survival_stats: the events ratio *)

(** C4: on a table with at least one row (and fewer than 2^53) whose event
    cells are 0 or 1, the fourth line printed is the events ratio: the
    quotient of the sum of the event column by the number of rows, and
    nothing else (no factor 100), as a float, written with two decimals and
    followed by a percent sign.  The float is the binary64 number nearest to
    sum/N; the line shows its nearest hundredth, from 0.00 to 1.00, digit by
    digit. *)
Theorem survival_stats_events_ratio plot_km_survf d t_col e_col plot es :
  wf d ->
  nrows d <> O ->
  (Z.of_nat (nrows d) < 2 ^ 53)%Z ->
  lookup_col e_col (columns d) = Some es ->
  Forall (fun c => (c == 0)%Q \/ (c == 1)%Q) (values es) ->
  exists q h,
    nth_error (fst (survival_stats plot_km_survf d t_col e_col plot)) 3 =
      Some [TStr ("# Events Ratio: " ++ two_decimals h ++ "%")] /\
    nearest_binary64 (total es / inject_Z (Z.of_nat (nrows d))) q /\
    (0 <= q)%Q /\ (q <= 1)%Q /\
    (0 <= h <= 100)%Z /\
    nearest_hundredth q h.
Proof.
  intros Hwf Hn Hbig He Hbin.
  pose proof (wf_column_length d e_col es Hwf He) as Hlen.
  destruct (series_sum_binary es Hbin ltac:(rewrite Hlen; exact Hbig))
    as (Hsum & z & Hz & Hz').
  rewrite Hlen in Hz.
  destruct (fdiv_count_nearest (total es) (nrows d) z Hn Hbig Hz Hz')
    as (q & Hq & H0 & H1 & Hnear).
  exists q, (hundredths q).
  split; [|split; [exact Hnear|split; [exact H0|split; [exact H1|split]]]].
  - pose proof (true_divide_rows (dtype_of es) (series_sum es) (nrows d) Hn) as Hr.
    rewrite Hsum, Hq, <- Hsum in Hr.
    rewrite <- (format_2f_unit q H0 H1).
    destruct (lookup_col t_col (columns d)) as [ts|] eqn:Ht.
    + rewrite (survival_stats_full _ _ _ _ _ es _ ts He Hr Ht). reflexivity.
    + rewrite (survival_stats_no_time _ _ _ _ _ es _ He Hr Ht). reflexivity.
  - apply hundredths_unit; assumption.
  - apply hundredths_nearest; assumption.
Qed.

(** The instance the specification names: 100 rows, 30 events, and the line
    reads 0.30%. *)
Lemma survival_stats_events_ratio_witness :
  nth_error (fst (survival_stats no_plot hundred_rows "t" "e" false)) 3 =
    Some [TStr "# Events Ratio: 0.30%"] /\
  exists q h,
    nth_error (fst (survival_stats no_plot hundred_rows "t" "e" false)) 3 =
      Some [TStr ("# Events Ratio: " ++ two_decimals h ++ "%")] /\
    nearest_binary64
      (total (num (repeat 1%Q 30 ++ repeat 0%Q 70)) / inject_Z 100) q /\
    (0 <= q)%Q /\ (q <= 1)%Q /\
    (0 <= h <= 100)%Z /\
    nearest_hundredth q h.
Proof.
  split; [vm_compute; reflexivity|].
  apply (survival_stats_events_ratio no_plot hundred_rows "t" "e" false
           (num (repeat 1%Q 30 ++ repeat 0%Q 70))).
  - wf_table.
  - discriminate.
  - reflexivity.
  - reflexivity.
  - apply List.Forall_forall. intros v Hv. apply in_app_or in Hv.
    destruct Hv as [Hv|Hv]; apply repeat_spec in Hv; subst v;
      [right|left]; reflexivity.
Defined.

(** ** survival_stats: a table without rows *)

(** C5, as stated, fails: on a table of numeric columns with no rows the
    call raises nothing; it prints the whole report, with nan for the
    ratio. *)
Lemma survival_stats_empty_table_reports :
  wf empty_numeric_table /\
  nrows empty_numeric_table = O /\
  survival_stats no_plot empty_numeric_table "t" "e" false =
  ([ [TStr "--------------- Survival Data Statistics ---------------"];
     [TStr "# Rows:"; TInt 0];
     [TStr "# Columns: 0 + e + t"];
     [TStr "# Events Ratio: nan%"];
     [TStr "# Min Time:"; TNum NaN];
     [TStr "# Max Time:"; TNum NaN];
     [TStr ""] ], Ok tt).
Proof. split; [wf_table|split; reflexivity]. Qed.

(** C5 (as amended): on a well-formed table with no rows that has both
    columns, nothing checks the row count.  The first three lines are printed
    in any case.  With an event column of a numeric dtype the quotient 0/0 is
    nan: the call prints nan for the ratio and for both extremes and raises
    nothing of its own.  With an event column of dtype object the division
    raises ZeroDivisionError, after those three lines. *)
Theorem survival_stats_zero_rows plot_km_survf d t_col e_col plot es ts :
  wf d ->
  nrows d = O ->
  lookup_col e_col (columns d) = Some es ->
  lookup_col t_col (columns d) = Some ts ->
  survival_stats plot_km_survf d t_col e_col plot =
  match dtype_of es with
  | Numeric =>
      (preamble d t_col e_col ++
         [ [TStr "# Events Ratio: nan%"];
           [TStr "# Min Time:"; TNum NaN];
           [TStr "# Max Time:"; TNum NaN];
           [TStr ""] ],
       if plot then plot_km_survf d "t" "e" else Ok tt)
  | Object => (preamble d t_col e_col, Raise ZeroDivisionError)
  end.
Proof.
  intros Hwf Hn He Ht.
  pose proof (wf_column_length d e_col es Hwf He) as Hle.
  pose proof (wf_column_length d t_col ts Hwf Ht) as Hlt.
  rewrite Hn in Hle, Hlt.
  apply length_zero_iff_nil in Hle. apply length_zero_iff_nil in Hlt.
  destruct (dtype_of es) eqn:Hk.
  - rewrite (survival_stats_full _ _ _ _ _ es NaN ts He); [| |exact Ht].
    + unfold body, series_min, series_max, ratio_line. rewrite Hlt. reflexivity.
    + rewrite Hk, Hn, (series_sum_nil es Hle). reflexivity.
  - apply (survival_stats_no_ratio _ _ _ _ _ es); [exact He|].
    rewrite Hk, Hn. reflexivity.
Qed.

Lemma survival_stats_zero_rows_witness :
  survival_stats no_plot empty_object_table "t" "e" false =
  (preamble empty_object_table "t" "e", Raise ZeroDivisionError).
Proof.
  apply (survival_stats_zero_rows no_plot empty_object_table "t" "e" false
           (mkSeries Object []) (mkSeries Object [])).
  - wf_table.
  - reflexivity.
  - reflexivity.
  - reflexivity.
Defined.

(** ** Missing columns *)

(** C6, as stated, fails: with the label written under the name of the
    missing event column, [survival_df] finds the column it has just created
    and returns.  (And on a table without rows whose event column has dtype
    object, [survival_stats] raises ZeroDivisionError before it looks for the
    missing time column.) *)
Lemma survival_df_missing_event_as_label :
  wf no_event_table /\ wf empty_object_no_time /\
  lookup_col "e" (columns no_event_table) = None /\
  snd (survival_df "t" "e" "e" [] no_event_table) =
    Ok (mkDataFrame 2 [ ("x_0", num [1; 3]); ("e", num [5; 10]) ]%Q) /\
  lookup_col "t" (columns empty_object_no_time) = None /\
  snd (survival_stats no_plot empty_object_no_time "t" "e" false) =
    Raise ZeroDivisionError.
Proof. split; [wf_table|]. split; [wf_table|]. repeat split. Qed.

(** C6 (as amended): the error for an absent column is pandas' KeyError,
    carrying the column name.  [survival_stats] raises it whenever the event
    column is absent, and for an absent time column whenever the ratio could
    be computed (the table has rows, or the event column is numeric).
    [survival_df] raises it whenever the time column is absent, and for an
    absent event column whenever the label name is not the event column's. *)
Theorem missing_column_raises_KeyError :
  (forall plot_km_survf d t_col e_col plot,
     wf d ->
     lookup_col e_col (columns d) = None ->
     snd (survival_stats plot_km_survf d t_col e_col plot) =
       Raise (KeyError e_col)) /\
  (forall plot_km_survf d t_col e_col plot es,
     wf d ->
     lookup_col e_col (columns d) = Some es ->
     lookup_col t_col (columns d) = None ->
     nrows d <> O \/ dtype_of es = Numeric ->
     snd (survival_stats plot_km_survf d t_col e_col plot) =
       Raise (KeyError t_col)) /\
  (forall t_col e_col label_col exclude_col d,
     wf d ->
     lookup_col t_col (columns d) = None ->
     snd (survival_df t_col e_col label_col exclude_col d) =
       Raise (KeyError t_col)) /\
  (forall t_col e_col label_col exclude_col d ts,
     wf d ->
     lookup_col t_col (columns d) = Some ts ->
     lookup_col e_col (columns d) = None ->
     label_col <> e_col ->
     snd (survival_df t_col e_col label_col exclude_col d) =
       Raise (KeyError e_col)).
Proof.
  split; [|split; [|split]].
  - intros. rewrite survival_stats_no_event by assumption. reflexivity.
  - intros plotf d t_col e_col plot es _ He Ht Hor.
    assert (exists r, true_divide (dtype_of es) (series_sum es) (nrows d) = Ok r)
      as [r Hr].
    { destruct (nrows d) eqn:Hn.
      - destruct Hor as [H|H]; [congruence|]. rewrite H. simpl. eauto.
      - rewrite true_divide_rows by discriminate. eauto. }
    rewrite (survival_stats_no_time _ _ _ _ _ es r He Hr Ht). reflexivity.
  - intros. rewrite survival_df_no_time by assumption. reflexivity.
  - intros t_col e_col label_col exclude_col d ts _ Ht He Hne.
    rewrite (survival_df_no_event _ _ _ _ _ ts Ht); [reflexivity|].
    rewrite lookup_assign_ne by assumption. exact He.
Qed.

Lemma missing_column_raises_KeyError_witness :
  snd (survival_stats no_plot no_event_table "t" "e" false) = Raise (KeyError "e") /\
  snd (survival_stats no_plot no_time_table "t" "e" false) = Raise (KeyError "t") /\
  snd (survival_df "t" "e" "Y" [] no_time_table) = Raise (KeyError "t") /\
  snd (survival_df "t" "e" "Y" [] no_event_table) = Raise (KeyError "e").
Proof.
  destruct missing_column_raises_KeyError as (H1 & H2 & H3 & H4).
  split; [|split; [|split]].
  - apply H1; [wf_table|reflexivity].
  - apply (H2 no_plot no_time_table "t" "e" false (num [1; 0]%Q)).
    + wf_table.
    + reflexivity.
    + reflexivity.
    + left. discriminate.
  - apply H3; [wf_table|reflexivity].
  - apply (H4 "t" "e" "Y" [] no_event_table (num [5; 10]%Q)).
    + wf_table.
    + reflexivity.
    + reflexivity.
    + discriminate.
Defined.

(** ** What is left behind when a call raises *)





(** ** load_simulated_data: the default configuration *)

(** C9, as stated, fails.  Every call that leaves [gaussian_config] out
    hands the generator the same dict, the one made when the function was
    defined; it starts empty, and whatever a generator stores in it is there
    for the next call.  With a generator that completes its configuration,
    a call with seed 42 returns one table in a fresh session and another one
    after an earlier call with seed 7, and the configuration that later call
    receives is not empty. *)
Lemma default_config_leaks_between_calls :
  let load := load_simulated_data completing_generate_data default0 in
  let h1 := fst (load (args_with_seed 7) None store0) in
  store0 !! config_ref default0 None = Some ∅ /\
  h1 !! config_ref default0 None = Some {[ "c" := 7%Q ]} /\
  snd (load (args_with_seed 42) None store0) =
    Ok (mkDataFrame 1 [ ("x_0", num [42%Q]); ("e", num [1%Q]); ("t", num [42%Q]) ]) /\
  snd (load (args_with_seed 42) None h1) =
    Ok (mkDataFrame 1 [ ("x_0", num [7%Q]); ("e", num [1%Q]); ("t", num [7%Q]) ]) /\
  snd (load (args_with_seed 42) None h1) <> snd (load (args_with_seed 42) None store0).
Proof.
  vm_compute. repeat split; intros H; discriminate H.
Qed.

Lemma run_calls_store generate_data default_cfg calls h :
  (forall a l h0, fst (generate_data a l h0) = h0) ->
  run_calls generate_data default_cfg calls h = h.
Proof.
  intros Hpure. revert h.
  induction calls as [|[a g] rest IH]; intros h; simpl; [reflexivity|].
  rewrite IH. unfold load_simulated_data.
  specialize (Hpure a (config_ref default_cfg g) h).
  destruct (generate_data a (config_ref default_cfg g) h) as [h' [raw|e]];
    simpl in *; assumption.
Qed.

(** C9 (as amended): the default configuration is one dict, created empty
    when the function is defined and kept by the function object; a call that
    leaves [gaussian_config] out passes that very object on, exactly as if
    the caller had passed it.  If the generator never writes to the store,
    the store is the same before every call, and two calls with identical
    arguments return the same table whatever calls came before. *)
Theorem load_simulated_data_default_config :
  (forall h : gmap nat (gmap string Q),
     h !! snd (def_load_simulated_data h) = None /\
     fst (def_load_simulated_data h) !! snd (def_load_simulated_data h) = Some ∅) /\
  (forall generate_data default_cfg a h,
     load_simulated_data generate_data default_cfg a None h =
     load_simulated_data generate_data default_cfg a (Some default_cfg) h) /\
  (forall generate_data,
     (forall a l h, fst (generate_data a l h) = h) ->
     forall default_cfg calls a g h,
       load_simulated_data generate_data default_cfg a g
         (run_calls generate_data default_cfg calls h) =
       load_simulated_data generate_data default_cfg a g h).
Proof.
  split; [|split].
  - intros h. unfold def_load_simulated_data. simpl. split.
    + apply not_elem_of_dom. apply is_fresh.
    + apply lookup_insert_eq.
  - reflexivity.
  - intros generate_data Hpure default_cfg calls a g h.
    rewrite run_calls_store by assumption. reflexivity.
Qed.

Lemma load_simulated_data_default_config_witness :
  load_simulated_data reading_generate_data default0 (args_with_seed 42) None
    (run_calls reading_generate_data default0
       [(args_with_seed 7, None); (args_with_seed 9, None)] store0) =
  load_simulated_data reading_generate_data default0 (args_with_seed 42) None store0.
Proof.
  apply (proj2 (proj2 load_simulated_data_default_config) reading_generate_data).
  intros a l h. unfold reading_generate_data. destruct (h !! l); reflexivity.
Defined.

(** * Further properties *)

(** ** More on columns by name *)

Lemma assign_assign c s1 s2 cols :
  assign_col c s2 (assign_col c s1 cols) = assign_col c s2 cols.
Proof.
  unfold assign_col at 1. rewrite lookup_assign_eq. apply replace_assign.
Qed.

Lemma replace_same c s cols :
  lookup_col c cols = Some s -> replace_col c s cols = cols.
Proof.
  induction cols as [|[n s0] rest IH]; simpl; [reflexivity|].
  destruct (String.eqb n c) eqn:E.
  - intros [= ->]. reflexivity.
  - intros H. rewrite IH by assumption. reflexivity.
Qed.

Lemma assign_same c s cols :
  lookup_col c cols = Some s -> assign_col c s cols = cols.
Proof. intros H. unfold assign_col. rewrite H. apply replace_same, H. Qed.

Lemma Forall_replace (P : string * Series -> Prop) c s cols :
  Forall P cols -> P (c, s) -> Forall P (replace_col c s cols).
Proof.
  intros H Hs. induction H as [|[n s0] rest Hn Hrest IH]; simpl; [constructor|].
  destruct (String.eqb n c) eqn:E.
  - apply String.eqb_eq in E. subst n. constructor; assumption.
  - constructor; assumption.
Qed.

Lemma Forall_assign (P : string * Series -> Prop) c s cols :
  Forall P cols -> P (c, s) -> Forall P (assign_col c s cols).
Proof.
  intros H Hs. unfold assign_col. destruct (lookup_col c cols).
  - apply Forall_replace; assumption.
  - apply Forall_app. split; [assumption|]. constructor; [assumption|constructor].
Qed.

Lemma NoDup_snoc (l : list string) (x : string) :
  List.NoDup l -> ~ In x l -> List.NoDup (l ++ [x]).
Proof.
  induction 1 as [|y l Hy Hnd IH]; simpl; intros Hx.
  - constructor; [intros []|constructor].
  - constructor.
    + rewrite in_app_iff. simpl. intros [H|[H|[]]]; [contradiction|].
      apply Hx. left. congruence.
    + apply IH. intros H. apply Hx. right. exact H.
Qed.

Lemma NoDup_assign c s cols :
  List.NoDup (map fst cols) -> List.NoDup (map fst (assign_col c s cols)).
Proof.
  intros H. rewrite names_assign. destruct (lookup_col c cols) eqn:E.
  - rewrite app_nil_r. exact H.
  - apply NoDup_snoc; [exact H|]. apply lookup_col_None. exact E.
Qed.

Lemma wf_assign d c s :
  wf d -> List.length (values s) = nrows d ->
  wf (mkDataFrame (nrows d) (assign_col c s (columns d))).
Proof.
  intros [Hnd Hlen] Hs. split; simpl.
  - unfold column_names. simpl. apply NoDup_assign. exact Hnd.
  - apply Forall_assign; [exact Hlen|exact Hs].
Qed.

Lemma frame_eta d : mkDataFrame (nrows d) (columns d) = d.
Proof. destruct d. reflexivity. Qed.

Lemma Qopp_twice (v : Q) : Qopp (Qopp v) = v.
Proof. destruct v as [n dn]. unfold Qopp. simpl. rewrite Z.opp_involutive. reflexivity. Qed.

(** The opposite of the opposite of a cell that fits its dtype is the cell
    again. *)
Lemma neg_cell_twice k st (v : Q) :
  cell_in_range k st v -> neg_cell k st (neg_cell k st v) = v.
Proof.
  unfold cell_in_range, neg_cell. destruct k; [|intros _; apply Qopp_twice].
  destruct st as [|w|w]; [intros _; apply Qopp_twice| |].
  - intros [Hlo Hhi].
    destruct (Qeq_bool v (inject_Z (- 2 ^ (w - 1)))) eqn:E; [rewrite E; reflexivity|].
    destruct (Qeq_bool (- v) (inject_Z (- 2 ^ (w - 1)))) eqn:E'; [|apply Qopp_twice].
    exfalso. apply Qeq_bool_eq in E'. rewrite inject_Z_opp in E'. lra.
  - intros [Hlo Hhi].
    destruct (Qeq_bool v 0) eqn:E; [rewrite E; reflexivity|].
    destruct (Qeq_bool (inject_Z (2 ^ w) - v) 0) eqn:E'.
    { exfalso. apply Qeq_bool_eq in E'. lra. }
    destruct v as [n dn]. unfold Qminus, Qplus, Qopp, inject_Z. simpl.
    f_equal. lia.
Qed.

Lemma negate_where_twice k st mask vs :
  Forall (cell_in_range k st) vs ->
  negate_where (neg_cell k st) mask (negate_where (neg_cell k st) mask vs) = vs.
Proof.
  intros H. revert mask.
  induction H as [|v vs Hv _ IH]; intros [|m mask]; simpl; try reflexivity.
  rewrite IH. destruct m; [|reflexivity].
  rewrite (neg_cell_twice k st v Hv). reflexivity.
Qed.

Lemma with_values_eta (s : Series) : with_values s (values s) = s.
Proof. destruct s. reflexivity. Qed.

(** ** survival_df: when it returns, and what it leaves *)

(** X1: When the label is a new column, or an existing one of the dtype of
    the times, the call returns exactly when the time column is there and the
    event column is there too or is about to be created as the label column;
    no other argument can make it raise. *)
Theorem survival_df_returns_iff t_col e_col label_col exclude_col d :
  wf d ->
  compatible_label d t_col label_col ->
  ((exists out, snd (survival_df t_col e_col label_col exclude_col d) = Ok out) <->
   In t_col (column_names d) /\
   (In e_col (column_names d) \/ label_col = e_col)).
Proof.
  intros _ _. unfold column_names. split.
  - intros [out Hout].
    destruct (lookup_col t_col (columns d)) as [ts|] eqn:Ht.
    2: { rewrite survival_df_no_time in Hout by assumption. discriminate. }
    split.
    { destruct (in_dec string_dec t_col (map fst (columns d))) as [H|H]; [exact H|].
      apply lookup_col_None in H. congruence. }
    destruct (string_dec label_col e_col) as [E|E]; [right; exact E|left].
    destruct (lookup_col e_col (columns d)) as [es|] eqn:He.
    + destruct (in_dec string_dec e_col (map fst (columns d))) as [H|H]; [exact H|].
      apply lookup_col_None in H. congruence.
    + rewrite (survival_df_no_event _ _ _ _ _ ts Ht) in Hout; [discriminate|].
      rewrite lookup_assign_ne by assumption. exact He.
  - intros [Ht He].
    destruct (lookup_col t_col (columns d)) as [ts|] eqn:Et.
    2: { apply lookup_col_None in Et. contradiction. }
    assert (exists es, lookup_col e_col (assign_col label_col ts (columns d)) = Some es)
      as [es Hes].
    { destruct He as [He | ->].
      - destruct (string_dec label_col e_col) as [-> | E].
        + rewrite lookup_assign_eq. eauto.
        + rewrite lookup_assign_ne by assumption.
          destruct (lookup_col e_col (columns d)) eqn:Ee; [eauto|].
          apply lookup_col_None in Ee. contradiction.
      - rewrite lookup_assign_eq. eauto. }
    rewrite (survival_df_run _ _ _ _ _ ts es Et Hes).
    set (ys := with_values _ _).
    destruct (survival_df_picks t_col e_col label_col exclude_col d ys)
      as (xs & -> & _ & _).
    simpl. eauto.
Qed.

Lemma survival_df_returns_iff_witness :
  (exists out, snd (survival_df "t" "e" "Y" [] example_table) = Ok out) <->
  In "t" (column_names example_table) /\
  (In "e" (column_names example_table) \/ "Y" = "e").
Proof.
  apply (survival_df_returns_iff "t" "e" "Y" [] example_table).
  - wf_table.
  - intros ts _. exact I.
Defined.

(** X2: Whatever the call does, it leaves the caller's table well formed: the
    names stay distinct and every column, the label column included, is as
    long as the index. *)
Theorem survival_df_keeps_wf t_col e_col label_col exclude_col d :
  wf d -> wf (fst (survival_df t_col e_col label_col exclude_col d)).
Proof.
  intros Hwf.
  destruct (lookup_col t_col (columns d)) as [ts|] eqn:Ht.
  2: { rewrite survival_df_no_time by assumption. exact Hwf. }
  pose proof (wf_column_length d t_col ts Hwf Ht) as Hlen.
  destruct (lookup_col e_col (assign_col label_col ts (columns d))) as [es|] eqn:He.
  - rewrite (survival_df_run _ _ _ _ _ ts es Ht He). simpl.
    apply wf_assign; [exact Hwf|]. simpl.
    rewrite negate_where_length. exact Hlen.
  - rewrite (survival_df_no_event _ _ _ _ _ ts Ht He). simpl.
    apply wf_assign; assumption.
Qed.

Lemma survival_df_keeps_wf_witness :
  wf (fst (survival_df "t" "e" "Y" [] example_table)).
Proof.
  apply (survival_df_keeps_wf "t" "e" "Y" [] example_table). wf_table.
Defined.

(** The result in full, for a label name that is not a retained covariate. *)
Lemma survival_df_result t_col e_col label_col exclude_col d ts es :
  wf d ->
  lookup_col t_col (columns d) = Some ts ->
  lookup_col e_col (columns d) = Some es ->
  ~ (In label_col (column_names d) /\
     retained t_col e_col exclude_col label_col = true) ->
  survival_df t_col e_col label_col exclude_col d =
  (mkDataFrame (nrows d)
     (assign_col label_col (label_series label_col e_col ts es) (columns d)),
   Ok (mkDataFrame (nrows d)
         (List.filter (fun c => retained t_col e_col exclude_col (fst c)) (columns d)
          ++ [(label_col, label_series label_col e_col ts es)]))).
Proof.
  intros [Hnd _] Ht He Hfree.
  destruct (survival_df_returns t_col e_col label_col exclude_col d ts es Ht He)
    as (xs & Hrun & Hpick & _).
  fold (label_series label_col e_col ts es) in Hrun, Hpick.
  rewrite Hrun. do 4 f_equal.
  unfold column_names in Hpick. rewrite pick_filter in Hpick.
  - injection Hpick as <-. reflexivity.
  - intros n s Hin Hkeep. rewrite lookup_assign_ne.
    + apply In_lookup; assumption.
    + intros <-. apply Hfree. split; [|assumption].
      unfold column_names. apply (in_map fst) in Hin. exact Hin.
Qed.

Lemma label_series_length label_col e_col ts es :
  List.length (values (label_series label_col e_col ts es)) = List.length (values ts).
Proof.
  unfold label_series. simpl.
  destruct (String.eqb label_col e_col); [reflexivity|apply negate_where_length].
Qed.

(** X3: For a label name that is not a retained covariate, the table returned
    is well formed and has as many rows as the input: distinct column names,
    every column (the label column too) as long as the index. *)
Theorem survival_df_output_wf t_col e_col label_col exclude_col d ts es :
  wf d ->
  lookup_col t_col (columns d) = Some ts ->
  lookup_col e_col (columns d) = Some es ->
  ~ (In label_col (column_names d) /\
     retained t_col e_col exclude_col label_col = true) ->
  exists out,
    snd (survival_df t_col e_col label_col exclude_col d) = Ok out /\
    wf out /\ nrows out = nrows d /\
    List.length (columns out) =
      S (List.length (List.filter (retained t_col e_col exclude_col) (column_names d))).
Proof.
  intros Hwf Ht He Hfree.
  rewrite (survival_df_result _ _ _ _ _ ts es Hwf Ht He Hfree).
  eexists. split; [reflexivity|].
  destruct Hwf as [Hnd Hlen].
  pose proof (wf_column_length d t_col ts (conj Hnd Hlen) Ht) as Hts.
  split; [|split].
  - split.
    + unfold column_names. cbn [columns]. rewrite map_app. cbn [map fst].
      rewrite <- filter_names. apply NoDup_snoc.
      * apply List.NoDup_filter. exact Hnd.
      * intros H. apply filter_In in H. apply Hfree. exact H.
    + cbn [columns nrows]. apply Forall_app. split.
      * rewrite List.Forall_forall in Hlen. apply List.Forall_forall.
        intros c Hc. apply filter_In in Hc. apply Hlen, Hc.
      * constructor; [|constructor]. cbn [snd].
        rewrite label_series_length. exact Hts.
  - reflexivity.
  - simpl. rewrite length_app. simpl. unfold column_names.
    rewrite filter_names, length_map. lia.
Qed.

Lemma survival_df_output_wf_witness :
  exists out,
    snd (survival_df "t" "e" "Y" [] example_table) = Ok out /\
    wf out /\ nrows out = nrows example_table /\
    List.length (columns out) =
      S (List.length (List.filter (retained "t" "e" []) (column_names example_table))).
Proof.
  apply (survival_df_output_wf "t" "e" "Y" [] example_table
           (num [5; 10]%Q) (num [1; 0]%Q)).
  - wf_table.
  - reflexivity.
  - reflexivity.
  - simpl. intuition discriminate.
Defined.

(** X4: A second call with the same arguments on the same table object finds
    the label column the first call left there.  It rewrites it with the same
    labels (the times, with their opposite in the dtype of the times where
    the event is 0), so the caller's table does not change any more; but the
    label name now counts as a covariate, and the table returned carries the
    label column twice. *)
Theorem survival_df_second_call t_col e_col label_col exclude_col d ts es :
  wf d ->
  lookup_col t_col (columns d) = Some ts ->
  lookup_col e_col (columns d) = Some es ->
  label_col <> t_col -> label_col <> e_col ->
  ~ In label_col (column_names d) ->
  ~ In label_col exclude_col ->
  let ys := label_series label_col e_col ts es in
  let d1 := fst (survival_df t_col e_col label_col exclude_col d) in
  exists xs,
    snd (survival_df t_col e_col label_col exclude_col d) =
      Ok (mkDataFrame (nrows d) (xs ++ [(label_col, ys)])) /\
    survival_df t_col e_col label_col exclude_col d1 =
      (d1, Ok (mkDataFrame (nrows d) (xs ++ [(label_col, ys); (label_col, ys)]))).
Proof.
  intros Hwf Ht He Hnt Hne Hnew Hnex ys d1.
  destruct (survival_df_returns t_col e_col label_col exclude_col d ts es Ht He)
    as (xs & Hrun & Hpick & _).
  fold (label_series label_col e_col ts es) in Hrun, Hpick. fold ys in Hrun, Hpick.
  exists xs. split; [rewrite Hrun; reflexivity|].
  unfold d1. rewrite Hrun. simpl fst.
  set (cols1 := assign_col label_col ys (columns d)).
  assert (Ht1 : lookup_col t_col cols1 = Some ts)
    by (unfold cols1; rewrite lookup_assign_ne; assumption).
  assert (He1 : lookup_col e_col cols1 = Some es)
    by (unfold cols1; rewrite lookup_assign_ne; assumption).
  destruct (survival_df_returns t_col e_col label_col exclude_col
              (mkDataFrame (nrows d) cols1) ts es Ht1 He1)
    as (xs2 & Hrun2 & Hpick2 & _).
  fold (label_series label_col e_col ts es) in Hrun2, Hpick2.
  fold ys in Hrun2, Hpick2. simpl in Hrun2, Hpick2.
  unfold cols1 in Hrun2, Hpick2. rewrite assign_assign in Hrun2, Hpick2.
  fold cols1 in Hrun2, Hpick2.
  assert (Hnames : column_names (mkDataFrame (nrows d) cols1) =
                   column_names d ++ [label_col]).
  { unfold column_names, cols1. simpl. rewrite names_assign.
    apply lookup_col_None in Hnew. unfold column_names in Hnew.
    fold (column_names d). unfold column_names. rewrite Hnew. reflexivity. }
  rewrite Hnames, List.filter_app, pick_app in Hpick2. fold cols1 in Hpick.
  rewrite Hpick in Hpick2. simpl in Hpick2.
  assert (Hkeep : retained t_col e_col exclude_col label_col = true)
    by (apply retained_iff; auto).
  rewrite Hkeep in Hpick2. simpl in Hpick2.
  unfold cols1 in Hpick2 at 1. rewrite lookup_assign_eq in Hpick2.
  injection Hpick2 as <-.
  rewrite Hrun2. rewrite <- app_assoc. reflexivity.
Qed.

Lemma survival_df_second_call_witness :
  exists xs,
    snd (survival_df "t" "e" "Y" [] example_table) =
      Ok (mkDataFrame 2 (xs ++ [("Y", num [5; -10]%Q)])) /\
    survival_df "t" "e" "Y" [] (fst (survival_df "t" "e" "Y" [] example_table)) =
      (fst (survival_df "t" "e" "Y" [] example_table),
       Ok (mkDataFrame 2 (xs ++ [("Y", num [5; -10]%Q); ("Y", num [5; -10]%Q)]))).
Proof.
  apply (survival_df_second_call "t" "e" "Y" [] example_table
           (num [5; 10]%Q) (num [1; 0]%Q)).
  - wf_table.
  - reflexivity.
  - reflexivity.
  - discriminate.
  - discriminate.
  - simpl. intuition discriminate.
  - simpl. tauto.
Defined.

(** X5: With the time column itself named as the label, the call negates the
    censored times in place, in the dtype of the column; when the times fit
    that dtype, a second call negates them back, and the caller's table is
    again what it was. *)
Theorem survival_df_time_as_label_twice t_col e_col exclude_col d ts es :
  wf d ->
  lookup_col t_col (columns d) = Some ts ->
  lookup_col e_col (columns d) = Some es ->
  t_col <> e_col ->
  let d1 := fst (survival_df t_col e_col t_col exclude_col d) in
  lookup_col t_col (columns d1) =
    Some (with_values ts (negate_where (neg_in ts) (eq_zero es) (values ts))) /\
  (in_range ts -> fst (survival_df t_col e_col t_col exclude_col d1) = d).
Proof.
  intros _ Ht He Hne d1.
  destruct (survival_df_returns t_col e_col t_col exclude_col d ts es Ht He)
    as (xs & Hrun & _).
  apply String.eqb_neq in Hne. rewrite Hne in Hrun.
  unfold d1. rewrite Hrun. simpl fst.
  set (ys := with_values ts (negate_where (neg_in ts) (eq_zero es) (values ts))) in *.
  set (cols1 := assign_col t_col ys (columns d)).
  assert (Ht1 : lookup_col t_col cols1 = Some ys)
    by (unfold cols1; apply lookup_assign_eq).
  assert (He1 : lookup_col e_col cols1 = Some es).
  { unfold cols1. rewrite lookup_assign_ne; [exact He|].
    apply String.eqb_neq. exact Hne. }
  split; [exact Ht1|]. intros Hfit.
  destruct (survival_df_returns t_col e_col t_col exclude_col
              (mkDataFrame (nrows d) cols1) ys es Ht1 He1)
    as (xs2 & Hrun2 & _).
  rewrite Hne in Hrun2. rewrite Hrun2. simpl.
  unfold neg_in. cbn [ys with_values dtype_of storage_of values].
  rewrite (negate_where_twice _ _ _ _ Hfit).
  change (with_values ys (values ts)) with (with_values ts (values ts)).
  rewrite with_values_eta.
  unfold cols1. rewrite assign_assign, (assign_same _ _ _ Ht). apply frame_eta.
Qed.

Lemma survival_df_time_as_label_twice_witness :
  lookup_col "t" (columns (fst (survival_df "t" "e" "t" [] example_table))) =
    Some (num [5; -10]%Q) /\
  fst (survival_df "t" "e" "t" []
         (fst (survival_df "t" "e" "t" [] example_table))) = example_table.
Proof.
  destruct (survival_df_time_as_label_twice "t" "e" [] example_table
              (num [5; 10]%Q) (num [1; 0]%Q)) as [H1 H2].
  - wf_table.
  - reflexivity.
  - reflexivity.
  - discriminate.
  - split; [exact H1|]. apply H2. forall_cells.
Defined.

(** X6: The excluded names count as a set, and only through the columns the
    table has: two exclusion lists that name the same columns of the table
    (in any order, with repetitions, with names the table does not have)
    give the same call. *)
Theorem survival_df_exclude_as_set t_col e_col label_col ex1 ex2 d :
  wf d ->
  (forall c, In c (column_names d) -> (In c ex1 <-> In c ex2)) ->
  survival_df t_col e_col label_col ex1 d =
  survival_df t_col e_col label_col ex2 d.
Proof.
  intros _ Hsame.
  assert (Hf : List.filter (fun c => negb (mem_str c ([t_col; e_col] ++ ex1)))
                 (column_names d) =
               List.filter (fun c => negb (mem_str c ([t_col; e_col] ++ ex2)))
                 (column_names d)).
  { apply filter_ext_in. intros c Hc. f_equal.
    apply eq_true_iff_eq. rewrite !mem_str_In. simpl.
    specialize (Hsame c Hc). tauto. }
  unfold survival_df, py_bind, get_columns. cbv beta iota zeta.
  rewrite Hf. reflexivity.
Qed.

Lemma survival_df_exclude_as_set_witness :
  survival_df "t" "e" "Y" ["x_1"; "age"; "x_1"] example_table =
  survival_df "t" "e" "Y" ["x_1"] example_table.
Proof.
  apply (survival_df_exclude_as_set "t" "e" "Y" ["x_1"; "age"; "x_1"] ["x_1"]
           example_table).
  - wf_table.
  - simpl. intros c [<-|[<-|[<-|[<-|[]]]]]; split; intros H; simpl in *;
      intuition discriminate.
Defined.

(** ** survival_stats: when it returns, and what it prints *)

(** X7: The report returns normally exactly when both columns are there, the
    ratio can be computed (the table has rows, or its event column is
    numeric) and, if a plot is asked for, the plotting routine returns.  That
    routine is always run on the columns named "t" and "e", whatever [t_col]
    and [e_col] are.  A report that returns has printed seven lines. *)
Theorem survival_stats_returns_iff plot_km_survf d t_col e_col plot :
  wf d ->
  (snd (survival_stats plot_km_survf d t_col e_col plot) = Ok tt <->
   (exists es ts,
      lookup_col e_col (columns d) = Some es /\
      lookup_col t_col (columns d) = Some ts /\
      (nrows d <> O \/ dtype_of es = Numeric)) /\
   (plot = true -> plot_km_survf d "t" "e" = Ok tt)) /\
  (snd (survival_stats plot_km_survf d t_col e_col plot) = Ok tt ->
   List.length (fst (survival_stats plot_km_survf d t_col e_col plot)) = 7%nat).
Proof.
  intros _.
  destruct (lookup_col e_col (columns d)) as [es|] eqn:He.
  2: { rewrite survival_stats_no_event by assumption. simpl.
       split; [split|]; try discriminate.
       intros [(es & ts & H & _) _]. discriminate. }
  destruct (true_divide (dtype_of es) (series_sum es) (nrows d)) as [r|e0] eqn:Hr.
  2: { rewrite (survival_stats_no_ratio _ _ _ _ _ es e0 He Hr). simpl.
       split; [split|]; try discriminate.
       intros [(es' & ts & H & _ & Hor) _]. injection H as <-.
       unfold true_divide in Hr.
       destruct (dtype_of es); [discriminate|].
       destruct (nrows d); [|discriminate].
       destruct Hor; congruence. }
  assert (Hor : nrows d <> O \/ dtype_of es = Numeric).
  { unfold true_divide in Hr. destruct (dtype_of es); [right; reflexivity|].
    destruct (nrows d); [discriminate|left; discriminate]. }
  destruct (lookup_col t_col (columns d)) as [ts|] eqn:Ht.
  2: { rewrite (survival_stats_no_time _ _ _ _ _ es r He Hr Ht). simpl.
       split; [split|]; try discriminate.
       intros [(es' & ts & _ & H & _) _]. discriminate. }
  rewrite (survival_stats_full _ _ _ _ _ es r ts He Hr Ht). simpl.
  split; [|reflexivity]. split.
  - intros H. split; [exists es, ts; auto|].
    intros ->. exact H.
  - intros [_ Hp]. destruct plot; [auto|reflexivity].
Qed.

Lemma survival_stats_returns_iff_witness :
  (snd (survival_stats no_plot example_table "t" "e" true) = Ok tt <->
   (exists es ts,
      lookup_col "e" (columns example_table) = Some es /\
      lookup_col "t" (columns example_table) = Some ts /\
      (nrows example_table <> O \/ dtype_of es = Numeric)) /\
   (true = true -> no_plot example_table "t" "e" = Ok tt)) /\
  (snd (survival_stats no_plot example_table "t" "e" true) = Ok tt ->
   List.length (fst (survival_stats no_plot example_table "t" "e" true)) = 7%nat).
Proof.
  apply (survival_stats_returns_iff no_plot example_table "t" "e" true). wf_table.
Defined.

Lemma events_ratio_line plot_km_survf d t_col e_col plot es :
  nrows d <> O ->
  lookup_col e_col (columns d) = Some es ->
  nth_error (fst (survival_stats plot_km_survf d t_col e_col plot)) 3 =
  Some (ratio_line (fdiv (b64 (series_sum es)) (b64 (inject_Z (Z.of_nat (nrows d)))))).
Proof.
  intros Hn He.
  pose proof (true_divide_rows (dtype_of es) (series_sum es) (nrows d) Hn) as Hr.
  destruct (lookup_col t_col (columns d)) as [ts|] eqn:Ht.
  - rewrite (survival_stats_full _ _ _ _ _ es _ ts He Hr Ht). reflexivity.
  - rewrite (survival_stats_no_time _ _ _ _ _ es _ He Hr Ht). reflexivity.
Qed.

Lemma sum_all_ones (vs : list Q) :
  Forall (fun v => (v == 1)%Q) vs ->
  (fold_right Qplus 0 vs == inject_Z (Z.of_nat (List.length vs)))%Q.
Proof.
  induction 1 as [|v vs Hv _ IH]; simpl List.length; simpl fold_right.
  - reflexivity.
  - rewrite Nat2Z.inj_succ, <- Z.add_1_r, inject_Z_plus, Hv, IH.
    change (inject_Z 1) with 1%Q. ring.
Qed.

Lemma sum_all_zeros (vs : list Q) :
  Forall (fun v => (v == 0)%Q) vs -> (fold_right Qplus 0 vs == 0)%Q.
Proof.
  induction 1 as [|v vs Hv _ IH]; simpl fold_right; [reflexivity|].
  rewrite Hv, IH. ring.
Qed.

(** X8: The two ends of the scale: a table in which every subject had the event
    prints 1.00%, not 100.00%, and one in which every subject is censored
    prints 0.00%. *)
Theorem survival_stats_ratio_extremes plot_km_survf d t_col e_col plot es :
  wf d ->
  nrows d <> O ->
  (Z.of_nat (nrows d) < 2 ^ 53)%Z ->
  lookup_col e_col (columns d) = Some es ->
  (Forall (fun v => (v == 1)%Q) (values es) ->
   nth_error (fst (survival_stats plot_km_survf d t_col e_col plot)) 3 =
     Some [TStr "# Events Ratio: 1.00%"]) /\
  (Forall (fun v => (v == 0)%Q) (values es) ->
   nth_error (fst (survival_stats plot_km_survf d t_col e_col plot)) 3 =
     Some [TStr "# Events Ratio: 0.00%"]).
Proof.
  intros Hwf Hn Hbig He.
  rewrite (events_ratio_line _ _ _ _ _ es Hn He).
  assert (HN : (0 < inject_Z (Z.of_nat (nrows d)))%Q).
  { change 0%Q with (inject_Z 0). rewrite <- Zlt_Qlt. lia. }
  destruct (b64_exact_int (Z.of_nat (nrows d)) ltac:(lia)) as (y & Hy & Ey).
  assert (E0 : Qeq_bool y 0 = false).
  { destruct (Qeq_bool y 0) eqn:E; [|reflexivity].
    apply Qeq_bool_iff in E. lra. }
  split; intros Hall.
  - pose proof (sum_all_ones _ Hall) as Hsum.
    rewrite (wf_column_length d e_col es Hwf He) in Hsum.
    rewrite (series_sum_small es (Z.of_nat (nrows d)) ltac:(lia) Hsum).
    unfold total. rewrite (b64_comp _ _ Hsum), Hy. unfold fdiv. rewrite E0.
    assert (E1 : (y / y == 1)%Q) by (field; lra).
    rewrite (b64_comp _ _ E1). reflexivity.
  - pose proof (sum_all_zeros _ Hall) as Hsum.
    rewrite (series_sum_small es 0 ltac:(lia) Hsum).
    unfold total. rewrite (b64_comp _ _ Hsum), Hy.
    change (b64 0) with (Fin 0). unfold fdiv. rewrite E0.
    assert (E1 : (0 / y == 0)%Q) by (field; lra).
    rewrite (b64_comp _ _ E1). reflexivity.
Qed.

Lemma survival_stats_ratio_extremes_witness :
  nth_error (fst (survival_stats no_plot all_events_table "t" "e" false)) 3 =
    Some [TStr "# Events Ratio: 1.00%"] /\
  nth_error (fst (survival_stats no_plot all_censored_table "t" "e" false)) 3 =
    Some [TStr "# Events Ratio: 0.00%"].
Proof.
  split.
  - apply (survival_stats_ratio_extremes no_plot all_events_table "t" "e" false
             (num [1; 1; 1]%Q)).
    + wf_table.
    + discriminate.
    + reflexivity.
    + reflexivity.
    + forall_cells.
  - apply (survival_stats_ratio_extremes no_plot all_censored_table "t" "e" false
             (num [0; 0; 0]%Q)).
    + wf_table.
    + discriminate.
    + reflexivity.
    + reflexivity.
    + forall_cells.
Defined.

Lemma Qmin_cases (a b : Q) : Qmin a b = a \/ Qmin a b = b.
Proof. unfold Qmin, GenericMinMax.gmin. destruct (a ?= b)%Q; auto. Qed.

Lemma Qmax_cases (a b : Q) : Qmax a b = a \/ Qmax a b = b.
Proof. unfold Qmax, GenericMinMax.gmax. destruct (a ?= b)%Q; auto. Qed.

Lemma fold_Qmin_spec (vs : list Q) (v : Q) :
  In (fold_left Qmin vs v) (v :: vs) /\
  forall x, In x (v :: vs) -> (fold_left Qmin vs v <= x)%Q.
Proof.
  revert v. induction vs as [|a vs IH]; intros v; simpl fold_left.
  - split; [left; reflexivity|]. intros x [<-|[]]. apply Qle_refl.
  - destruct (IH (Qmin v a)) as [Hin Hle]. split.
    + destruct Hin as [Hm|Hm].
      * rewrite <- Hm. destruct (Qmin_cases v a) as [->| ->];
          [left|right; left]; reflexivity.
      * right. right. exact Hm.
    + intros x [<-|[<-|Hx]].
      * eapply Qle_trans; [apply Hle; left; reflexivity|apply Q.le_min_l].
      * eapply Qle_trans; [apply Hle; left; reflexivity|apply Q.le_min_r].
      * apply Hle. right. exact Hx.
Qed.

Lemma fold_Qmax_spec (vs : list Q) (v : Q) :
  In (fold_left Qmax vs v) (v :: vs) /\
  forall x, In x (v :: vs) -> (x <= fold_left Qmax vs v)%Q.
Proof.
  revert v. induction vs as [|a vs IH]; intros v; simpl fold_left.
  - split; [left; reflexivity|]. intros x [<-|[]]. apply Qle_refl.
  - destruct (IH (Qmax v a)) as [Hin Hle]. split.
    + destruct Hin as [Hm|Hm].
      * rewrite <- Hm. destruct (Qmax_cases v a) as [->| ->];
          [left|right; left]; reflexivity.
      * right. right. exact Hm.
    + intros x [<-|[<-|Hx]].
      * eapply Qle_trans; [apply Q.le_max_l|apply Hle; left; reflexivity].
      * eapply Qle_trans; [apply Q.le_max_r|apply Hle; left; reflexivity].
      * apply Hle. right. exact Hx.
Qed.

(** X9: On a table with rows and both columns, the fifth and sixth lines show
    two cells of the time column, the first below and the second above every
    cell of that column. *)
Theorem survival_stats_time_range plot_km_survf d t_col e_col plot es ts :
  wf d ->
  nrows d <> O ->
  lookup_col e_col (columns d) = Some es ->
  lookup_col t_col (columns d) = Some ts ->
  exists lo hi,
    nth_error (fst (survival_stats plot_km_survf d t_col e_col plot)) 4 =
      Some [TStr "# Min Time:"; TNum (Fin lo)] /\
    nth_error (fst (survival_stats plot_km_survf d t_col e_col plot)) 5 =
      Some [TStr "# Max Time:"; TNum (Fin hi)] /\
    In lo (values ts) /\ In hi (values ts) /\
    forall v, In v (values ts) -> (lo <= v)%Q /\ (v <= hi)%Q.
Proof.
  intros Hwf Hn He Ht.
  pose proof (true_divide_rows (dtype_of es) (series_sum es) (nrows d) Hn) as Hr.
  rewrite (survival_stats_full _ _ _ _ _ es _ ts He Hr Ht).
  pose proof (wf_column_length d t_col ts Hwf Ht) as Hlen.
  unfold body, series_min, series_max.
  destruct (values ts) as [|v vs] eqn:Ev; [simpl in Hlen; congruence|].
  destruct (fold_Qmin_spec vs v) as [Hmin Hlo].
  destruct (fold_Qmax_spec vs v) as [Hmax Hhi].
  exists (fold_left Qmin vs v), (fold_left Qmax vs v).
  split; [reflexivity|]. split; [reflexivity|].
  split; [exact Hmin|]. split; [exact Hmax|].
  intros x Hx. split; [apply Hlo|apply Hhi]; exact Hx.
Qed.

Lemma survival_stats_time_range_witness :
  exists lo hi,
    nth_error (fst (survival_stats no_plot odd_events_table "t" "e" false)) 4 =
      Some [TStr "# Min Time:"; TNum (Fin lo)] /\
    nth_error (fst (survival_stats no_plot odd_events_table "t" "e" false)) 5 =
      Some [TStr "# Max Time:"; TNum (Fin hi)] /\
    In lo [5; 10; 7]%Q /\ In hi [5; 10; 7]%Q /\
    forall v, In v [5; 10; 7]%Q -> (lo <= v)%Q /\ (v <= hi)%Q.
Proof.
  apply (survival_stats_time_range no_plot odd_events_table "t" "e" false
           (num [2; 1 # 2; 0]%Q) (num [5; 10; 7]%Q)).
  - wf_table.
  - discriminate.
  - reflexivity.
  - reflexivity.
Defined.

(** ** load_simulated_data: the table it builds *)

Lemma format_d_inj (a b : Z) : format_d a = format_d b -> a = b.
Proof.
  unfold format_d. intros H.
  assert (Hnil : forall z, Z.to_int z <> Decimal.Pos Decimal.Nil /\
                           Z.to_int z <> Decimal.Neg Decimal.Nil).
  { intros z. split; intros E; pose proof (f_equal Z.of_int E) as E';
      rewrite DecimalZ.of_to in E'; simpl in E'; subst z; discriminate E. }
  apply (f_equal NilZero.int_of_string) in H.
  rewrite !NilZero.isi in H by apply Hnil.
  injection H as H. apply DecimalZ.to_int_inj. exact H.
Qed.

Lemma feature_name_inj (i j : nat) :
  ("x_" ++ format_d (Z.of_nat i))%string = ("x_" ++ format_d (Z.of_nat j))%string ->
  i = j.
Proof.
  simpl. intros [= H]. apply format_d_inj in H. lia.
Qed.

Lemma feature_names_NoDup (k : nat) : List.NoDup (feature_names k).
Proof.
  unfold feature_names. apply Finite.Injective_map_NoDup.
  - intros i j. apply feature_name_inj.
  - apply List.seq_NoDup.
Qed.

Lemma feature_columns_names x k : map fst (feature_columns x k) = feature_names k.
Proof. unfold feature_columns, feature_names. rewrite map_map. reflexivity. Qed.

(** No covariate is called "e", "t" or "Y": their names begin with "x_". *)
Lemma feature_names_prefix k c :
  In c (feature_names k) -> exists s, c = ("x_" ++ s)%string.
Proof.
  unfold feature_names. rewrite in_map_iff. intros (j & <- & _). eauto.
Qed.

Lemma lookup_feature_other x k c :
  (forall s, c <> ("x_" ++ s)%string) -> lookup_col c (feature_columns x k) = None.
Proof.
  intros H. apply lookup_col_None. rewrite feature_columns_names.
  intros Hin. apply feature_names_prefix in Hin as [s ->]. apply (H s). reflexivity.
Qed.

Lemma frame_of_matrix_shaped x k :
  Forall (fun row => List.length row = k) x ->
  frame_of_matrix x k = Ok (mkDataFrame (List.length x) (feature_columns x k)).
Proof.
  intros H. unfold frame_of_matrix.
  replace (forallb (fun row => Nat.eqb (List.length row) k) x) with true;
    [reflexivity|].
  symmetry. apply forallb_forall. rewrite List.Forall_forall in H.
  intros row Hrow. apply Nat.eqb_eq. apply H, Hrow.
Qed.

Lemma frame_of_raw_shaped raw k :
  well_shaped raw k ->
  frame_of_raw raw k =
  Ok (mkDataFrame (List.length (raw_x raw))
        (feature_columns (raw_x raw) k ++
         [("e", num (raw_e raw)); ("t", num (raw_t raw))])).
Proof.
  intros (Hx & He & Ht). unfold frame_of_raw.
  rewrite (frame_of_matrix_shaped _ _ Hx). unfold setitem. simpl.
  rewrite He, Nat.eqb_refl. simpl. rewrite Ht, Nat.eqb_refl.
  unfold assign_col at 2.
  rewrite lookup_feature_other by (intros s; discriminate).
  unfold assign_col.
  rewrite lookup_app_none by (apply lookup_feature_other; intros s; discriminate).
  simpl. rewrite <- app_assoc. reflexivity.
Qed.

Lemma assign_col_cons c s cols : exists p rest, assign_col c s cols = p :: rest.
Proof.
  unfold assign_col. destruct (lookup_col c cols) eqn:E.
  - destruct cols as [|[n s1] rest]; [discriminate|]. simpl.
    destruct (String.eqb n c); eauto.
  - destruct cols; simpl; eauto.
Qed.

(** The two ways [df[c] = vals] goes through. *)
Lemma setitem_rows c vals d df :
  setitem c vals d = Ok df ->
  (List.length vals = nrows d /\
   df = mkDataFrame (nrows d) (assign_col c (num vals) (columns d))) \/
  (List.length vals <> O /\ nrows d = O /\ columns d = [] /\
   df = mkDataFrame (List.length vals) [(c, num vals)]).
Proof.
  unfold setitem. destruct (Nat.eqb (List.length vals) (nrows d)) eqn:E.
  - intros [= <-]. left. apply Nat.eqb_eq in E. auto.
  - destruct (nrows d) eqn:En; [|discriminate].
    destruct (columns d) eqn:Ec; [|discriminate].
    intros [= <-]. right. apply Nat.eqb_neq in E. auto.
Qed.

Lemma setitem_raises c vals d e :
  setitem c vals d = Raise e -> exists msg, e = ValueError msg.
Proof.
  unfold setitem. destruct (Nat.eqb (List.length vals) (nrows d)); [discriminate|].
  destruct (nrows d); [destruct (columns d); [discriminate|]|];
    intros [= <-]; eauto.
Qed.

(** The tables [frame_of_raw] builds: the one of data that fit together,
    or, from data without covariates (no row, no name), the table of the
    events and times alone. *)
Lemma frame_of_raw_ok raw k df :
  frame_of_raw raw k = Ok df ->
  (well_shaped raw k /\
   df = mkDataFrame (List.length (raw_x raw))
          (feature_columns (raw_x raw) k ++
           [("e", num (raw_e raw)); ("t", num (raw_t raw))])) \/
  (raw_x raw = [] /\ k = O /\ raw_e raw <> [] /\
   List.length (raw_t raw) = List.length (raw_e raw) /\
   df = mkDataFrame (List.length (raw_e raw))
          [("e", num (raw_e raw)); ("t", num (raw_t raw))]).
Proof.
  intros H. pose proof H as H0. revert H.
  unfold frame_of_raw, frame_of_matrix.
  destruct (forallb (fun row => Nat.eqb (List.length row) k) (raw_x raw)) eqn:Ex;
    [|discriminate].
  fold (feature_columns (raw_x raw) k).
  assert (Hx : Forall (fun row => List.length row = k) (raw_x raw)).
  { apply List.Forall_forall. intros row Hrow.
    rewrite forallb_forall in Ex. apply Nat.eqb_eq, Ex, Hrow. }
  destruct (setitem "e" (raw_e raw) _) as [d1|] eqn:E1; [|discriminate].
  intros E2.
  apply setitem_rows in E1. apply setitem_rows in E2.
  cbn [nrows columns] in E1.
  destruct E1 as [[He ->] | (He & Hn & Hc & ->)]; cbn [nrows columns] in E2.
  - destruct E2 as [[Ht _] | (_ & _ & Hc & _)].
    + left. assert (Hs : well_shaped raw k) by (split; [exact Hx|split; assumption]).
      split; [exact Hs|].
      rewrite (frame_of_raw_shaped _ _ Hs) in H0. injection H0 as <-. reflexivity.
    + exfalso.
      destruct (assign_col_cons "e" (num (raw_e raw))
                  (feature_columns (raw_x raw) k)) as (p & rest & E).
      rewrite E in Hc. discriminate.
  - destruct E2 as [[Ht ->] | (_ & Hn' & _ & _)]; [|contradiction].
    right. apply length_zero_iff_nil in Hn.
    split; [exact Hn|]. split.
    { unfold feature_columns in Hc. apply map_eq_nil in Hc.
      destruct k; [reflexivity|discriminate]. }
    split; [intros E; apply He; rewrite E; reflexivity|].
    split; [exact Ht|reflexivity].
Qed.

Lemma simulated_frame_wf raw k :
  well_shaped raw k ->
  wf (mkDataFrame (List.length (raw_x raw))
        (feature_columns (raw_x raw) k ++
         [("e", num (raw_e raw)); ("t", num (raw_t raw))])).
Proof.
  intros (Hx & He & Ht). split.
  - unfold column_names. cbn [columns]. rewrite map_app, feature_columns_names.
    cbn [map fst].
    change (feature_names k ++ ["e"; "t"]) with (feature_names k ++ ["e"] ++ ["t"]).
    rewrite app_assoc. apply NoDup_snoc; [apply NoDup_snoc|].
    + apply feature_names_NoDup.
    + intros H. apply feature_names_prefix in H as [s H]. discriminate.
    + rewrite in_app_iff. intros [H|[H|[]]]; [|discriminate].
      apply feature_names_prefix in H as [s H]. discriminate.
  - cbn [columns nrows]. apply Forall_app. split.
    + unfold feature_columns. apply List.Forall_forall.
      intros c Hc. apply in_map_iff in Hc as (j & <- & _).
      cbn [snd]. unfold num. cbn [values]. apply length_map.
    + repeat constructor; assumption.
Qed.

Lemma load_simulated_data_ok generate_data default_cfg a g h df :
  snd (load_simulated_data generate_data default_cfg a g h) = Ok df ->
  exists raw,
    snd (generate_data a (config_ref default_cfg g) h) = Ok raw /\
    ((well_shaped raw (num_features a) /\
      df = mkDataFrame (List.length (raw_x raw))
             (feature_columns (raw_x raw) (num_features a) ++
              [("e", num (raw_e raw)); ("t", num (raw_t raw))])) \/
     (raw_x raw = [] /\ num_features a = O /\ raw_e raw <> [] /\
      List.length (raw_t raw) = List.length (raw_e raw) /\
      df = mkDataFrame (List.length (raw_e raw))
             [("e", num (raw_e raw)); ("t", num (raw_t raw))])).
Proof.
  unfold load_simulated_data.
  destruct (generate_data a (config_ref default_cfg g) h) as [h' [raw|e]];
    simpl; [|discriminate].
  intros H. exists raw. split; [reflexivity|].
  apply frame_of_raw_ok. exact H.
Qed.

(** X11: The store is, in every case, the one the generator left: the function
    writes nothing itself, and an exception of the generator is passed on.
    For generated data with at least one observation, the call returns a
    table exactly when the data fit together; the table then has one row per
    observation and the columns x_0, ..., x_(k-1), e, t, in this order;
    column x_j holds the j-th covariate of every row.  Every table returned
    is well formed, with these column names. *)
Theorem load_simulated_data_frame generate_data default_cfg a g h :
  let k := num_features a in
  let r := generate_data a (config_ref default_cfg g) h in
  fst (load_simulated_data generate_data default_cfg a g h) = fst r /\
  (forall e, snd r = Raise e ->
     snd (load_simulated_data generate_data default_cfg a g h) = Raise e) /\
  (forall raw df,
     snd r = Ok raw ->
     is_matrix (raw_x raw) ->
     (snd (load_simulated_data generate_data default_cfg a g h) = Ok df <->
      well_shaped raw k /\
      df = mkDataFrame (List.length (raw_x raw))
             (feature_columns (raw_x raw) k ++
              [("e", num (raw_e raw)); ("t", num (raw_t raw))]))) /\
  (forall df,
     snd (load_simulated_data generate_data default_cfg a g h) = Ok df ->
     wf df /\ column_names df = feature_names k ++ ["e"; "t"]).
Proof.
  intros k r.
  split; [|split; [|split]].
  - unfold load_simulated_data. fold r. destruct r as [h' [raw|e]]; reflexivity.
  - unfold load_simulated_data. fold r. destruct r as [h' [raw|e]]; simpl;
      [discriminate|]. intros e0 [= <-]. reflexivity.
  - intros raw df Hr [Hrows _]. split.
    + intros H. apply load_simulated_data_ok in H as (raw0 & Hraw & Hcase).
      fold r in Hraw. rewrite Hr in Hraw. injection Hraw as <-.
      destruct Hcase as [Hstd|(Hnil & _)]; [exact Hstd|contradiction].
    + intros [Hs ->]. unfold load_simulated_data. fold r.
      destruct r as [h' [raw0|e]]; simpl in *; [|discriminate].
      injection Hr as ->. apply frame_of_raw_shaped, Hs.
  - intros df H. apply load_simulated_data_ok in H as (raw & _ & Hcase).
    destruct Hcase as [[Hs ->]|(_ & Hk & Hne & Ht & ->)].
    + split; [apply simulated_frame_wf, Hs|].
      unfold column_names. cbn [columns]. rewrite map_app, feature_columns_names.
      reflexivity.
    + fold k in Hk. rewrite Hk. split; [|reflexivity].
      split; [nodup_strings|]. cbn [columns nrows].
      repeat constructor. exact Ht.
Qed.

Lemma load_simulated_data_frame_witness :
  snd (load_simulated_data constant_generate_data default0 two_features None store0)
    = Ok (mkDataFrame 2
            [ ("x_0", num [1; 3]); ("x_1", num [2; 4]);
              ("e", num [1; 0]); ("t", num [5; 10]) ]%Q) <->
  well_shaped raw_example 2 /\
  mkDataFrame 2
    [ ("x_0", num [1; 3]); ("x_1", num [2; 4]);
      ("e", num [1; 0]); ("t", num [5; 10]) ]%Q =
  mkDataFrame (List.length (raw_x raw_example))
    (feature_columns (raw_x raw_example) 2 ++
     [("e", num (raw_e raw_example)); ("t", num (raw_t raw_example))]).
Proof.
  apply (proj1 (proj2 (proj2 (load_simulated_data_frame constant_generate_data
                                default0 two_features None store0)))
           raw_example).
  - reflexivity.
  - split; [discriminate|]. exists 2%nat. repeat constructor.
Defined.

(** X12: The only exception of its own the function can raise is ValueError, for
    generated data that do not fit together; any other exception is the
    generator's, passed on as it is. *)
Theorem load_simulated_data_raises generate_data default_cfg a g h e :
  snd (load_simulated_data generate_data default_cfg a g h) = Raise e ->
  snd (generate_data a (config_ref default_cfg g) h) = Raise e \/
  exists raw msg,
    snd (generate_data a (config_ref default_cfg g) h) = Ok raw /\
    ~ well_shaped raw (num_features a) /\
    e = ValueError msg.
Proof.
  unfold load_simulated_data.
  destruct (generate_data a (config_ref default_cfg g) h) as [h' [raw|e0]];
    simpl; [|intros [= <-]; left; reflexivity].
  intros H. right. exists raw.
  assert (Hbad : ~ well_shaped raw (num_features a)).
  { intros Hs. rewrite (frame_of_raw_shaped _ _ Hs) in H. discriminate. }
  assert (Hmsg : exists msg, e = ValueError msg).
  { revert H. unfold frame_of_raw, frame_of_matrix.
    destruct (forallb _ (raw_x raw)); [|intros [= <-]; eauto].
    destruct (setitem "e" (raw_e raw) _) as [d1|e1] eqn:E1.
    - apply setitem_raises.
    - intros [= <-]. apply setitem_raises in E1. exact E1. }
  destruct Hmsg as [msg ->]. exists msg.
  split; [reflexivity|]. split; [exact Hbad|reflexivity].
Qed.

Lemma load_simulated_data_raises_witness :
  snd (short_generate_data two_features (config_ref default0 None) store0)
    = Raise (ValueError "Length of values does not match length of index") \/
  exists raw msg,
    snd (short_generate_data two_features (config_ref default0 None) store0)
      = Ok raw /\
    ~ well_shaped raw (num_features two_features) /\
    ValueError "Length of values does not match length of index" = ValueError msg.
Proof.
  apply (load_simulated_data_raises short_generate_data default0
           two_features None store0).
  reflexivity.
Defined.

(** ** From simulated data to labels and statistics *)

Lemma filter_all {A} (f : A -> bool) (l : list A) :
  (forall x, In x l -> f x = true) -> List.filter f l = l.
Proof.
  induction l as [|x l IH]; intros H; simpl; [reflexivity|].
  rewrite (H x) by (left; reflexivity). rewrite IH; [reflexivity|].
  intros y Hy. apply H. right. exact Hy.
Qed.

Lemma feature_columns_retained x k :
  List.filter (fun c => retained "t" "e" [] (fst c)) (feature_columns x k) =
  feature_columns x k.
Proof.
  apply filter_all. intros [n s] Hin. apply (in_map fst) in Hin.
  rewrite feature_columns_names in Hin.
  apply feature_names_prefix in Hin as [p Hp]. simpl in Hp. subst n. reflexivity.
Qed.

Lemma simulated_frame_lookup raw k :
  let cols := feature_columns (raw_x raw) k ++
              [("e", num (raw_e raw)); ("t", num (raw_t raw))] in
  lookup_col "e" cols = Some (num (raw_e raw)) /\
  lookup_col "t" cols = Some (num (raw_t raw)) /\
  ~ In "Y" (map fst cols).
Proof.
  intros cols. unfold cols. split; [|split].
  - rewrite lookup_app_none by (apply lookup_feature_other; intros s; discriminate).
    reflexivity.
  - rewrite lookup_app_none by (apply lookup_feature_other; intros s; discriminate).
    reflexivity.
  - rewrite map_app, feature_columns_names, in_app_iff. simpl.
    intros [H|[H|[H|[]]]]; try discriminate.
    apply feature_names_prefix in H as [s H]. discriminate.
Qed.

(** X13: Every table [load_simulated_data] returns has the generated events
    and times as its columns e and t, and, when the data had at least one
    observation, can be passed to [survival_df] with its default arguments:
    the call returns the covariate columns x_0, ..., x_(k-1) unchanged,
    followed by the label column Y, which holds the times of the table, with
    their opposite (in the dtype of that column) where the event is 0. *)
Theorem simulated_then_survival_df generate_data default_cfg a g h df :
  snd (load_simulated_data generate_data default_cfg a g h) = Ok df ->
  exists raw ts es,
    snd (generate_data a (config_ref default_cfg g) h) = Ok raw /\
    lookup_col "t" (columns df) = Some ts /\ values ts = raw_t raw /\
    lookup_col "e" (columns df) = Some es /\ values es = raw_e raw /\
    (is_matrix (raw_x raw) ->
     snd (survival_df "t" "e" "Y" [] df) =
       Ok (mkDataFrame (List.length (raw_x raw))
             (feature_columns (raw_x raw) (num_features a) ++
              [("Y", with_values ts
                       (negate_where (neg_in ts) (eq_zero es) (values ts)))]))).
Proof.
  intros H. apply load_simulated_data_ok in H as (raw & Hgen & Hcase).
  exists raw, (num (raw_t raw)), (num (raw_e raw)).
  split; [exact Hgen|].
  destruct Hcase as [[Hs ->]|(Hnil & _ & _ & _ & ->)].
  - destruct (simulated_frame_lookup raw (num_features a)) as (He & Ht & HY).
    split; [exact Ht|]. split; [reflexivity|].
    split; [exact He|]. split; [reflexivity|]. intros _.
    rewrite (survival_df_result "t" "e" "Y" [] _ (num (raw_t raw)) (num (raw_e raw))).
    + cbn [snd columns nrows]. rewrite List.filter_app, feature_columns_retained.
      cbn [List.filter fst retained mem_str app existsb String.eqb Ascii.eqb
           Bool.eqb orb negb].
      rewrite app_nil_r. reflexivity.
    + apply simulated_frame_wf, Hs.
    + exact Ht.
    + exact He.
    + intros [Hin _]. apply HY. exact Hin.
  - split; [reflexivity|]. split; [reflexivity|].
    split; [reflexivity|]. split; [reflexivity|].
    intros [Hrows _]. contradiction.
Qed.

Lemma simulated_then_survival_df_witness :
  snd (survival_df "t" "e" "Y" []
         (mkDataFrame 2
            [ ("x_0", num [1; 3]); ("x_1", num [2; 4]);
              ("e", num [1; 0]); ("t", num [5; 10]) ]%Q)) =
    Ok (mkDataFrame 2
          [ ("x_0", num [1; 3]); ("x_1", num [2; 4]); ("Y", num [5; -10]) ]%Q).
Proof.
  destruct (simulated_then_survival_df constant_generate_data default0
              two_features None store0
              (mkDataFrame 2
                 [ ("x_0", num [1; 3]); ("x_1", num [2; 4]);
                   ("e", num [1; 0]); ("t", num [5; 10]) ]%Q) eq_refl)
    as (raw & ts & es & Hgen & Ht & _ & He & _ & Hrun).
  injection Hgen as <-. injection Ht as <-. injection He as <-.
  apply Hrun. split; [discriminate|]. exists 2%nat. repeat constructor.
Defined.

(** X14: Every table [load_simulated_data] returns can be passed to
    [survival_stats] with its default column names: the report never raises,
    not even for a table without rows, prints seven lines, and its third
    line counts exactly the [num_features] covariates. *)
Theorem simulated_then_survival_stats
    generate_data plot_km_survf default_cfg a g h df :
  snd (load_simulated_data generate_data default_cfg a g h) = Ok df ->
  snd (survival_stats plot_km_survf df "t" "e" false) = Ok tt /\
  List.length (fst (survival_stats plot_km_survf df "t" "e" false)) = 7%nat /\
  nth_error (fst (survival_stats plot_km_survf df "t" "e" false)) 2 =
    Some [TStr ("# Columns: " ++ format_d (Z.of_nat (num_features a))
                ++ " + e + t")].
Proof.
  intros H. apply load_simulated_data_ok in H as (raw & _ & Hcase).
  destruct Hcase as [[_ ->]|(_ & Hk & _ & _ & ->)].
  2: { rewrite Hk.
       rewrite (survival_stats_full plot_km_survf
                  (mkDataFrame (List.length (raw_e raw))
                     [("e", num (raw_e raw)); ("t", num (raw_t raw))])
                  "t" "e" false (num (raw_e raw)) _ (num (raw_t raw))
                  eq_refl eq_refl eq_refl).
       split; [reflexivity|]. split; reflexivity. }
  destruct (simulated_frame_lookup raw (num_features a)) as (He & Ht & _).
  rewrite (survival_stats_full plot_km_survf
             (mkDataFrame (List.length (raw_x raw))
                (feature_columns (raw_x raw) (num_features a) ++
                 [("e", num (raw_e raw)); ("t", num (raw_t raw))]))
             "t" "e" false (num (raw_e raw)) _ (num (raw_t raw)) He eq_refl Ht).
  split; [reflexivity|]. split; [reflexivity|].
  cbn [fst preamble app nth_error columns].
  rewrite length_app. unfold feature_columns. rewrite length_map, length_seq.
  cbn [List.length].
  replace (Z.of_nat (num_features a + 2) - 2)%Z with (Z.of_nat (num_features a))
    by lia.
  reflexivity.
Qed.

Lemma simulated_then_survival_stats_witness :
  snd (survival_stats no_plot
         (mkDataFrame 2
            [ ("x_0", num [1; 3]); ("x_1", num [2; 4]);
              ("e", num [1; 0]); ("t", num [5; 10]) ]%Q) "t" "e" false) = Ok tt /\
  List.length
    (fst (survival_stats no_plot
            (mkDataFrame 2
               [ ("x_0", num [1; 3]); ("x_1", num [2; 4]);
                 ("e", num [1; 0]); ("t", num [5; 10]) ]%Q) "t" "e" false)) = 7%nat /\
  nth_error
    (fst (survival_stats no_plot
            (mkDataFrame 2
               [ ("x_0", num [1; 3]); ("x_1", num [2; 4]);
                 ("e", num [1; 0]); ("t", num [5; 10]) ]%Q) "t" "e" false)) 2 =
    Some [TStr ("# Columns: " ++ format_d (Z.of_nat (num_features two_features))
                ++ " + e + t")].
Proof.
  apply (simulated_then_survival_stats constant_generate_data no_plot default0
           two_features None store0).
  reflexivity.
Defined.

(** X10: The report reads nothing but the row count, the number of columns and
    the two named columns: two tables that agree on these print the same
    lines and end the same way, whatever their covariates hold. *)
Theorem survival_stats_reads_two_columns plot_km_survf d1 d2 t_col e_col :
  wf d1 -> wf d2 ->
  nrows d1 = nrows d2 ->
  List.length (columns d1) = List.length (columns d2) ->
  lookup_col e_col (columns d1) = lookup_col e_col (columns d2) ->
  lookup_col t_col (columns d1) = lookup_col t_col (columns d2) ->
  survival_stats plot_km_survf d1 t_col e_col false =
  survival_stats plot_km_survf d2 t_col e_col false.
Proof.
  intros _ _ Hn Hc He Ht.
  assert (Hp : preamble d1 t_col e_col = preamble d2 t_col e_col)
    by (unfold preamble; rewrite Hn, Hc; reflexivity).
  destruct (lookup_col e_col (columns d2)) as [es|] eqn:He2.
  2: { rewrite !survival_stats_no_event by assumption. rewrite Hp. reflexivity. }
  destruct (true_divide (dtype_of es) (series_sum es) (nrows d2)) as [r|e0] eqn:Hr.
  2: { rewrite (survival_stats_no_ratio _ d2 _ _ _ es e0 He2 Hr).
       rewrite <- Hn in Hr.
       rewrite (survival_stats_no_ratio _ d1 _ _ _ es e0 He Hr).
       rewrite Hp. reflexivity. }
  pose proof Hr as Hr1. rewrite <- Hn in Hr1.
  destruct (lookup_col t_col (columns d2)) as [ts|] eqn:Ht2.
  - rewrite (survival_stats_full _ d2 _ _ _ es r ts He2 Hr Ht2).
    rewrite (survival_stats_full _ d1 _ _ _ es r ts He Hr1 Ht).
    rewrite Hp. reflexivity.
  - rewrite (survival_stats_no_time _ d2 _ _ _ es r He2 Hr Ht2).
    rewrite (survival_stats_no_time _ d1 _ _ _ es r He Hr1 Ht).
    rewrite Hp. reflexivity.
Qed.

Lemma survival_stats_reads_two_columns_witness :
  survival_stats no_plot all_events_table "t" "e" false =
  survival_stats no_plot
    (mkDataFrame 3 [ ("e", num [1; 1; 1]); ("t", num [5; 10; 7]) ]%Q) "t" "e" false.
Proof.
  apply (survival_stats_reads_two_columns no_plot all_events_table
           (mkDataFrame 3 [ ("e", num [1; 1; 1]); ("t", num [5; 10; 7]) ]%Q)
           "t" "e").
  - wf_table.
  - wf_table.
  - reflexivity.
  - reflexivity.
  - reflexivity.
  - reflexivity.
Defined.
